(** * xv6 physical page allocator with reference counts and copy-on-write

    A shallow embedding of [kernel/kalloc.c]: the reference-count table
    [memrefs], the intrusive free list [kmem.freelist], and the functions
    [kinit], [freerange], [kfree], [kalloc], [incr_ref], [iscow] and
    [cowcopy].

    Conventions of the embedding.
    - Addresses, page-table entries and the [uint32] table index are
      integers in [Z]; the truncation to 32 bits and the wrap of a 64-bit
      shift are written out where the source has them.
    - Physical memory is a map from byte addresses to byte values.  The free
      list is intrusive, as in the source: the link of a free page is the
      little-endian 64-bit word stored in its first eight bytes.
    - A call either returns a value and a new state ([Done]), stops in
      [panic] ([Panic]), or runs into behaviour the C language leaves
      undefined ([Undefined]): dereferencing the null pointer, indexing
      [memrefs] outside its bounds, overflowing a signed [int].
    - [acquire]/[release] bracket every access to a counter and to the list
      head; the embedding describes one call running alone, where the locks
      are free on entry and free again on exit, so they carry no state. *)

From Stdlib Require Import ZArith Bool Lia String List.
Import ListNotations.
Open Scope Z_scope.

(** ** Platform constants *)

(** Page size: "Allocates whole 4096-byte pages" (kalloc.c, line 3). *)
Definition PGSIZE : Z := 4096.

(** The constants that [kalloc.c] takes from [memlayout.h], [riscv.h] and
    the linker script, none of which is among the sources, and whose values
    are the choice of the kernel build.  They are parameters of the
    development. *)
Class MemLayout : Type := {
  PHYSTOP : Z;   (* first address above the managed physical memory *)
  end_ : Z;      (* [end]: first address after the kernel image *)
  MAXVA : Z;     (* bound on virtual addresses *)
  PTE_COW : Z    (* the software copy-on-write flag of a page-table entry *)
}.

(** An instance, used for the examples: the layout of xv6 on the qemu
    [virt] board (128 MB of RAM from [0x80000000], [MAXVA = 1 << 38]), a
    kernel image that ends at [0x80021000], and the copy-on-write flag in
    bit 8. *)
Definition xv6_layout : MemLayout :=
  {| PHYSTOP := 0x88000000; end_ := 0x80021000; MAXVA := 2 ^ 38; PTE_COW := 2 ^ 8 |}.

(** ** Physical memory *)

Definition memory : Type := Z -> Z.

(** Modelled from the spec: the raw fill primitive ([memset], string.c is
    not among the sources): [n] bytes from [dst] become the byte [c]. *)
Definition memset (m : memory) (dst c n : Z) : memory :=
  fun a => if (dst <=? a) && (a <? dst + n) then c mod 256 else m a.

(** Modelled from the spec: the raw copy primitive ([memmove], string.c is
    not among the sources): [n] bytes from [dst] become the bytes that were
    at [src], also when the two ranges overlap. *)
Definition memmove (m : memory) (dst src n : Z) : memory :=
  fun a => if (dst <=? a) && (a <? dst + n) then m (src + (a - dst)) else m a.

(** [r->next = v]: a 64-bit little-endian store at [a]. *)
Definition store64 (m : memory) (a v : Z) : memory :=
  fun x => if (a <=? x) && (x <? a + 8)
           then Z.land (Z.shiftr v (8 * (x - a))) 255
           else m x.

(** The [n] bytes from [a], read as a little-endian number. *)
Fixpoint load_le (n : nat) (m : memory) (a : Z) : Z :=
  match n with
  | O => 0
  | S k => m a + 256 * load_le k m (a + 1)
  end.

(** [r->next]: a 64-bit little-endian load at [a]. *)
Definition load64 (m : memory) (a : Z) : Z := load_le 8 m a.

(** ** Allocator state *)

(** [memrefs[i].count] for every index, [kmem.freelist], and the physical
    memory the free list is threaded through. *)
Record kstate : Type := mkState {
  memrefs : Z -> Z;
  freelist : Z;
  phys : memory
}.

(** [f[i] = v] *)
Definition upd (f : Z -> Z) (i v : Z) : Z -> Z :=
  fun j => if j =? i then v else f j.

(** How a call ends. *)
Inductive outcome (A : Type) : Type :=
| Done (v : A) (s : kstate)
| Panic (msg : string)
| Undefined.
Arguments Done {A} v s.
Arguments Panic {A} msg.
Arguments Undefined {A}.

Definition bind {A B : Type} (c : outcome A) (k : A -> kstate -> outcome B) : outcome B :=
  match c with
  | Done v s => k v s
  | Panic msg => Panic msg
  | Undefined => Undefined
  end.

Notation "'call' x , s <- c ;; k" := (bind c (fun x s => k))
  (at level 10, x name, s name, c at level 100, k at level 200).

(** Bounds of the C type [int] of the counter. *)
Definition INT_MIN : Z := - 2 ^ 31.
Definition INT_MAX : Z := 2 ^ 31 - 1.

(** ** Page-table entries

    [riscv.h], which defines the macros below, is not among the sources.
    An entry "carries Valid, Writable, and COW flag bits plus a physical
    frame reference"; the kernel runs on RISC-V with Sv39 paging, whose
    hardware fixes the format: flags in bits 0 to 9 (valid in bit 0,
    writable in bit 2, bits 8 and 9 left to software), the physical page
    number from bit 10. *)

(** Modelled from the spec: [PTE_V], the Valid flag of an entry ([riscv.h]
    is missing); bit 0 in Sv39. *)
Definition PTE_V : Z := 1.

(** Modelled from the spec: [PTE_W], the Writable flag of an entry
    ([riscv.h] is missing); bit 2 in Sv39. *)
Definition PTE_W : Z := 4.

(** Modelled from the spec: [PTE2PA], the physical frame an entry refers
    to ([riscv.h] is missing): [((pte) >> 10) << 12], a 64-bit value. *)
Definition PTE2PA (pte : Z) : Z := Z.shiftl (Z.shiftr pte 10) 12 mod 2 ^ 64.

(** Modelled from the spec: [PA2PTE], the entry bits that refer to a
    physical frame ([riscv.h] is missing): [(pa >> 12) << 10]. *)
Definition PA2PTE (pa : Z) : Z := Z.shiftl (Z.shiftr pa 12) 10.

(** Modelled from the spec: [PTE_FLAGS], the flag bits of an entry
    ([riscv.h] is missing): [(pte) & 0x3FF]. *)
Definition PTE_FLAGS (pte : Z) : Z := Z.land pte 1023.

(** Modelled from the spec: [PGROUNDDOWN], which "rounds [vaddr] down to
    its frame boundary" ([riscv.h] is missing): [(a) & ~(PGSIZE-1)]. *)
Definition PGROUNDDOWN (a : Z) : Z := Z.land a (Z.lnot (PGSIZE - 1)).

(** Conversion of a 64-bit value to the C type [int] (the return type of
    [iscow]): the low 32 bits, read as a signed number. *)
Definition to_int (x : Z) : Z :=
  let y := x mod 2 ^ 32 in if y <? 2 ^ 31 then y else y - 2 ^ 32.

(** ** The address-translation service

    Modelled from the spec: the page table, [walk] and [mappages] (vm.c is
    not among the sources).  The spec takes them as an external service:
    a lookup from a virtual address to its entry, and a failable
    installation of a mapping "with new frame, size, and flags".  A table
    holds, for each virtual page number, the content of the leaf slot
    [walk] would return, or [None] where [walk] returns the null pointer.
    A pointer to a slot is the page number it belongs to.  The table is
    kept apart from [phys]: the pages that hold it are none of the frames
    that [kalloc.c] fills or copies. *)
Definition pagetable_t : Type := Z -> option Z.

(** The virtual page number of an address. *)
Definition vpn (va : Z) : Z := va / PGSIZE.

(** Modelled from the spec: [walk(pagetable, va, 0)], the lookup that does
    not allocate. *)
Definition walk (pagetable : pagetable_t) (va : Z) : option Z :=
  match pagetable (vpn va) with
  | Some _ => Some (vpn va)
  | None => None
  end.

(** [*pte], for a pointer that [walk] returned. *)
Definition load_pte (pagetable : pagetable_t) (pte : Z) : Z :=
  match pagetable pte with
  | Some e => e
  | None => 0
  end.

(** [*pte = e] *)
Definition store_pte (pagetable : pagetable_t) (pte e : Z) : pagetable_t :=
  fun k => if k =? pte then Some e else pagetable k.

(** [n] consecutive entries, from page [k] and frame [pa]. *)
Fixpoint map_pages (n : nat) (pagetable : pagetable_t) (k pa perm : Z) : pagetable_t :=
  match n with
  | O => pagetable
  | S n' =>
      map_pages n'
        (store_pte pagetable k (Z.lor (Z.lor (PA2PTE pa) perm) PTE_V))
        (k + 1) (pa + PGSIZE) perm
  end.

(** Modelled from the spec: [mappages(pagetable, va, size, pa, perm)].
    Whether the service can install the mapping is its own affair: [ok]
    is its verdict.  On success the pages from [va] to [va + size - 1]
    are mapped, as valid entries, to the frames from [pa] with the flags
    [perm]; on failure ([None], the source's non-zero result) the table is
    as it was. *)
Definition mappages (ok : bool) (pagetable : pagetable_t) (va size pa perm : Z)
  : option pagetable_t :=
  if ok then
    let a := PGROUNDDOWN va in
    let last := PGROUNDDOWN (va + size - 1) in
    Some (map_pages (Z.to_nat ((last - a) / PGSIZE + 1)) pagetable (vpn a) pa perm)
  else None.

Section Kalloc.
Context {L : MemLayout}.

(** [#define MEMREFS PHYSTOP/PGSIZE]: the length of [memrefs]. *)
Definition MEMREFS : Z := PHYSTOP / PGSIZE.

(** [uint32 i = (uint64)pa/PGSIZE]. *)
Definition frame_index (pa : Z) : Z := (pa / PGSIZE) mod 2 ^ 32.

(** [memrefs[i]] is an element of the array. *)
Definition in_table (i : Z) : bool := (0 <=? i) && (i <? MEMREFS).

(** The test that guards [kfree] and [incr_ref]: [pa] is not a multiple
    of [PGSIZE], or [pa < end], or [pa >= PHYSTOP]. *)
Definition bad_pa (pa : Z) : bool :=
  negb (pa mod PGSIZE =? 0) || (pa <? end_) || (PHYSTOP <=? pa).

(** A frame the allocator manages: page-aligned and in [[end, PHYSTOP)];
    the negation of [bad_pa] as a proposition. *)
Definition valid_frame (pa : Z) : Prop :=
  pa mod PGSIZE = 0 /\ end_ <= pa < PHYSTOP.

(** What the layout parameters are assumed to satisfy: the kernel image
    ends above address 0 (so that no managed frame is the null pointer),
    [PHYSTOP] is a page boundary, and the indices of [memrefs] fit the
    [uint32] they are computed in. *)
Definition layout_ok : Prop :=
  0 < end_ /\ PHYSTOP mod PGSIZE = 0 /\ MEMREFS <= 2 ^ 32.

(** The copy-on-write flag is one of the two entry bits that Sv39 leaves
    to software. *)
Definition cow_flag_ok : Prop := PTE_COW = 2 ^ 8 \/ PTE_COW = 2 ^ 9.

(** ** kfree *)
Definition kfree (pa : Z) (s : kstate) : outcome unit :=
  if bad_pa pa then Panic "kfree"
  else
    let i := frame_index pa in
    if negb (in_table i) then Undefined
    else
      let c := memrefs s i in
      if c <=? INT_MIN then Undefined                (* count-- *)
      else
        let refs := upd (memrefs s) i (c - 1) in
        if c - 1 >? 0 then
          Done tt (mkState refs (freelist s) (phys s))          (* goto notzero *)
        else
          let m := memset (phys s) pa 1 PGSIZE in
          let m := store64 m pa (freelist s) in       (* r->next = kmem.freelist *)
          Done tt (mkState refs pa m).                (* kmem.freelist = r *)

(** ** kalloc *)
Definition kalloc (s : kstate) : outcome Z :=
  let r := freelist s in
  if r =? 0 then Done 0 s
  else
    let i := frame_index r in
    if negb (in_table i) then Undefined
    else
      let refs := upd (memrefs s) i 1 in              (* memrefs[i].count = 1 *)
      let next := load64 (phys s) r in                (* kmem.freelist = r->next *)
      Done r (mkState refs next (memset (phys s) r 5 PGSIZE)).

(** ** incr_ref *)
Definition incr_ref (pa : Z) (s : kstate) : outcome Z :=
  if bad_pa pa then Done (-1) s
  else
    let i := frame_index pa in
    if negb (in_table i) then Undefined
    else
      let c := memrefs s i in
      if INT_MAX <=? c then Undefined                (* count++ *)
      else Done 1 (mkState (upd (memrefs s) i (c + 1)) (freelist s) (phys s)).

(** ** iscow *)
Definition iscow (pagetable : pagetable_t) (va : Z) : Z :=
  if va >? MAXVA then 0
  else
    match walk pagetable va with
    | None => 0
    | Some pte =>
        if Z.land (load_pte pagetable pte) PTE_V =? 0 then 0
        else to_int (Z.land (load_pte pagetable pte) PTE_COW)
    end.

(** ** cowcopy

    [mapok] is the verdict of the translation service on the one call of
    [mappages].  The result is the returned address together with the page
    table as the call leaves it. *)
Definition cowcopy (mapok : bool) (pagetable : pagetable_t) (va : Z) (s : kstate)
  : outcome (Z * pagetable_t) :=
  let va := PGROUNDDOWN va in
  match walk pagetable va with
  | None => Undefined                                  (* [*pte] with [pte == 0] *)
  | Some pte =>
      let pa := PTE2PA (load_pte pagetable pte) in
      let i := frame_index pa in
      if negb (in_table i) then Undefined
      else if memrefs s i =? 1 then
        let pagetable :=
          store_pte pagetable pte (Z.lor (load_pte pagetable pte) PTE_W) in
        let pagetable :=
          store_pte pagetable pte (Z.land (load_pte pagetable pte) (Z.lnot PTE_COW)) in
        Done (pa, pagetable) s
      else
        call mem, s <- kalloc s ;;
        if mem =? 0 then Done (0, pagetable) s
        else
          let s := mkState (memrefs s) (freelist s) (memmove (phys s) mem pa PGSIZE) in
          let pagetable :=
            store_pte pagetable pte (Z.land (load_pte pagetable pte) (Z.lnot PTE_V)) in
          let flag := PTE_FLAGS (load_pte pagetable pte) in
          let flag := Z.lor flag PTE_W in
          let flag := Z.land flag (Z.lnot PTE_COW) in
          match mappages mapok pagetable va PGSIZE mem flag with
          | None =>                                    (* freeing: *)
              call _u, s <- kfree mem s ;;
              Done (0, pagetable) s
          | Some pagetable =>                          (* rest: *)
              call _u, s <- kfree (PGROUNDDOWN pa) s ;;
              Done (mem, pagetable) s
          end
  end.

(** ** Entries that [cowcopy] writes *)

(** The entry after [*pte |= PTE_W; *pte &= ~PTE_COW]. *)
Definition grant_write (e : Z) : Z := Z.land (Z.lor e PTE_W) (Z.lnot PTE_COW).

(** The entry [mappages] installs in [cowcopy]: the flags of the old entry
    without the valid bit, with [PTE_W] and without [PTE_COW], on frame [g]. *)
Definition remapped (e g : Z) : Z :=
  Z.lor (Z.lor (PA2PTE g)
           (Z.land (Z.lor (PTE_FLAGS (Z.land e (Z.lnot PTE_V))) PTE_W) (Z.lnot PTE_COW)))
        PTE_V.

(** ** The free list as a list

    [kallocs n]: [n] calls of [kalloc] in a row, with the frames they
    return. *)
Fixpoint kallocs (n : nat) (s : kstate) : outcome (list Z) :=
  match n with
  | O => Done [] s
  | S k => call r, s <- kalloc s ;; call rs, s <- kallocs k s ;; Done (r :: rs) s
  end.

(** [linked m p l q]: following the links stored in [m], the list that
    starts at [p] runs through the pages [l], none of them null, in this
    order, and continues at [q]. *)
Inductive linked (m : memory) : Z -> list Z -> Z -> Prop :=
| linked_nil (p : Z) : linked m p [] p
| linked_cons (p : Z) (l : list Z) (q : Z) :
    p <> 0 -> linked m (load64 m p) l q -> linked m p (p :: l) q.

(** [m'] holds the same link as [m] in each page of [l]. *)
Definition same_links (m m' : memory) (l : list Z) : Prop :=
  forall x a, In x l -> x <= a < x + 8 -> m' a = m a.

(** ** freerange and kinit *)

(** Modelled from the spec: [PGROUNDUP], the first page boundary at or
    above an address ([riscv.h] is missing):
    [((sz)+PGSIZE-1) & ~(PGSIZE-1)], in 64-bit arithmetic. *)
Definition PGROUNDUP (sz : Z) : Z :=
  Z.land ((sz + PGSIZE - 1) mod 2 ^ 64) (Z.lnot (PGSIZE - 1)).

(** The loop of [freerange]:
    [for(; p + PGSIZE <= pa_end; p += PGSIZE) kfree(p);].
    [p] is a 64-bit pointer: the sum [p + PGSIZE] is taken modulo [2 ^ 64],
    so that at the last page of the address space it wraps to 0, the test
    holds and the body runs.  [fuel] bounds the number of iterations;
    [None] when it runs out before the loop ends. *)
Fixpoint freerange_loop (fuel : nat) (p pa_end : Z) (s : kstate) : option (outcome unit) :=
  match fuel with
  | O => None
  | S fuel' =>
      if (p + PGSIZE) mod 2 ^ 64 <=? pa_end then
        match kfree p s with
        | Done _ s' => freerange_loop fuel' ((p + PGSIZE) mod 2 ^ 64) pa_end s'
        | Panic msg => Some (Panic msg)
        | Undefined => Some Undefined
        end
      else Some (Done tt s)
  end.

(** [freerange(pa_start, pa_end)], with fuel for one iteration per page
    between the rounded start and [pa_end], and one more for the test that
    ends the loop.  That is enough whenever the frame table has at most
    [2 ^ 32] entries ([freerange_fuel]): a loop that passes [PHYSTOP], or
    wraps, stops in the [panic] of [kfree]. *)
Definition freerange (pa_start pa_end : Z) (s : kstate) : option (outcome unit) :=
  let p := PGROUNDUP pa_start in
  freerange_loop (S (Z.to_nat ((pa_end - p) / PGSIZE))) p pa_end s.

(** The first loop of [kinit]:
    [for(int i=0; i<MEMREFS; i++) initlock(&(memrefs[i].lock), "memrefs");].
    [initlock] leaves the modelled state alone, the locks not being part of
    it, but the counter [i] is an [int]: [i++] at [INT_MAX] is undefined.
    [fuel] bounds the number of iterations. *)
Fixpoint initlocks (fuel : nat) (i : Z) (s : kstate) : option (outcome unit) :=
  match fuel with
  | O => None
  | S fuel' =>
      if i <? MEMREFS then
        if INT_MAX <=? i then Some Undefined                (* i++ *)
        else initlocks fuel' (i + 1) s
      else Some (Done tt s)
  end.

(** [kinit()]: the loop over the frame table, with fuel for one iteration
    per entry and one more for the test that ends it; [initlock] on
    [kmem.lock], which leaves the modelled state alone; then
    [freerange(end, PHYSTOP)]. *)
Definition kinit (s : kstate) : option (outcome unit) :=
  match initlocks (S (Z.to_nat MEMREFS)) 0 s with
  | Some (Done _ s') => freerange end_ PHYSTOP s'
  | r => r
  end.

(** The state [kinit] starts from: [memrefs] and [kmem] are globals without
    an initializer, so every counter is 0 and the list is empty; the
    memory is whatever it is. *)
Definition boot_state (m : memory) : kstate := mkState (fun _ => 0) 0 m.

(** [n] consecutive pages from [p]. *)
Fixpoint frames (p : Z) (n : nat) : list Z :=
  match n with
  | O => []
  | S k => p :: frames (p + PGSIZE) k
  end.

(** [n] calls of [f] in a row. *)
Fixpoint times {A : Type} (n : nat) (f : kstate -> outcome A) (s : kstate) : outcome unit :=
  match n with
  | O => Done tt s
  | S k => call _r, s <- f s ;; times k f s
  end.

(** [s'] is [s] but for the counter at index [i], which holds [v]. *)
Definition counter_only (s s' : kstate) (i v : Z) : Prop :=
  memrefs s' i = v
  /\ (forall j, j <> i -> memrefs s' j = memrefs s j)
  /\ freelist s' = freelist s
  /\ phys s' = phys s.

(** The pages [freerange(pa_start, pa_end)] passes to [kfree], in the
    order of the calls, for a range in which no address wraps. *)
Definition freed_pages (pa_start pa_end : Z) : list Z :=
  frames (PGROUNDUP pa_start) (Z.to_nat ((pa_end - PGROUNDUP pa_start) / PGSIZE)).

(** The free list of [s] is the null-terminated list [l] of managed frames,
    none of which is counted as referenced. *)
Definition free_list_inv (s : kstate) (l : list Z) : Prop :=
  linked (phys s) (freelist s) l 0
  /\ Forall valid_frame l
  /\ (forall x, In x l -> memrefs s (frame_index x) <= 0).

End Kalloc.

(** ** Sample states on the xv6 layout

    Three frames at the top of RAM: [frame_f] is mapped, [frame_g] heads
    the free list and links to [frame_h], which ends it. *)
Definition frame_f : Z := 0x87fff000.
Definition frame_g : Z := 0x87ffe000.
Definition frame_h : Z := 0x87ffd000.

Definition sample_memory : memory :=
  store64 (store64 (fun _ => 7) frame_h 0) frame_g frame_h.

(** [frame_f] has [n] references; the two free frames have the counter
    -1 of a frame that was freed without having been allocated. *)
Definition sample_state (n : Z) : kstate :=
  mkState
    (fun i => if i =? 0x87fff then n
              else if (i =? 0x87ffe) || (i =? 0x87ffd) then -1 else 0)
    frame_g sample_memory.

(** The same counters with an empty free list. *)
Definition exhausted_state (n : Z) : kstate :=
  mkState (memrefs (sample_state n)) 0 sample_memory.

(** A user page table with one leaf slot, for page 5, holding [e]. *)
Definition sample_table (e : Z) : pagetable_t :=
  fun k => if k =? 5 then Some e else None.

(** Entries for [frame_f]: valid, readable, user ([0x13]); copy-on-write
    after a fork; and the same with the valid bit clear. *)
Definition pte_cow : Z := Z.lor (PA2PTE frame_f) (0x13 + 2 ^ 8).
Definition pte_cow_invalid : Z := Z.lor (PA2PTE frame_f) (0x12 + 2 ^ 8).
Definition pte_plain : Z := Z.lor (PA2PTE frame_f) 0x17.

(** A small machine, for running [kinit]: the kernel image ends inside
    the page at [0x80020000], and three whole pages follow it. *)
Definition tiny_layout : MemLayout :=
  {| PHYSTOP := 0x80024000; end_ := 0x80020800; MAXVA := 2 ^ 38; PTE_COW := 2 ^ 8 |}.

(** A table in which pages 5 and 6 both map [frame_f] copy-on-write, as
    after a fork. *)
Definition shared_table : pagetable_t :=
  fun k => if (k =? 5) || (k =? 6) then Some pte_cow else None.

(** * Properties *)

(** Settles the value of a comparison of integers from the linear facts
    at hand. *)
Ltac ztest :=
  symmetry;
  lazymatch goal with
  | |- _ = true =>
      rewrite ?andb_true_iff, ?Z.leb_le, ?Z.ltb_lt, ?Z.gtb_lt, ?Z.eqb_eq; lia
  | |- _ = false =>
      rewrite ?Z.gtb_ltb;
      rewrite ?andb_false_iff, ?Z.leb_gt, ?Z.ltb_ge, ?Z.eqb_neq; lia
  end.

(** ** Arithmetic of addresses and stored words *)

Lemma PGROUNDDOWN_eq (a : Z) : PGROUNDDOWN a = PGSIZE * (a / PGSIZE).
Proof.
  unfold PGROUNDDOWN, PGSIZE.
  change (4096 - 1) with (Z.ones 12).
  rewrite <- Z.ldiff_land, Z.ldiff_ones_r by lia.
  rewrite Z.shiftl_mul_pow2, Z.shiftr_div_pow2 by lia.
  change (2 ^ 12) with 4096. lia.
Qed.

Lemma vpn_PGROUNDDOWN (a : Z) : vpn (PGROUNDDOWN a) = vpn a.
Proof.
  rewrite PGROUNDDOWN_eq. unfold vpn, PGSIZE.
  rewrite Z.mul_comm, Z.div_mul by lia. reflexivity.
Qed.

Lemma PGROUNDDOWN_aligned (a : Z) : a mod PGSIZE = 0 -> PGROUNDDOWN a = a.
Proof.
  intros H. rewrite PGROUNDDOWN_eq. unfold PGSIZE in *.
  pose proof (Z.div_mod a 4096). lia.
Qed.

Lemma load_le_store64 (m : memory) (a v : Z) (n : nat) :
  forall j, 0 <= j -> j + Z.of_nat n <= 8 ->
    load_le n (store64 m a v) (a + j) = (v / 2 ^ (8 * j)) mod 2 ^ (8 * Z.of_nat n).
Proof.
  induction n as [|n IH]; intros j Hj Hn.
  - simpl. rewrite Z.mod_1_r. reflexivity.
  - cbn [load_le].
    replace (a + j + 1) with (a + (j + 1)) by lia.
    rewrite IH by lia.
    unfold store64 at 1.
    replace ((a <=? a + j) && (a + j <? a + 8)) with true by ztest.
    replace (a + j - a) with j by lia.
    rewrite Z.shiftr_div_pow2 by lia.
    change 255 with (Z.ones 8). rewrite Z.land_ones by lia.
    replace (8 * (j + 1)) with (8 * j + 8) by lia.
    rewrite Z.pow_add_r by lia.
    rewrite <- Z.div_div by lia.
    replace (8 * Z.of_nat (S n)) with (8 + 8 * Z.of_nat n) by lia.
    rewrite Z.pow_add_r by lia.
    change (2 ^ 8) with 256.
    rewrite (Z.rem_mul_r _ 256) by lia.
    reflexivity.
Qed.

(** The link read back from a page is the link that was stored there. *)
Lemma load64_store64 (m : memory) (a v : Z) :
  0 <= v < 2 ^ 64 -> load64 (store64 m a v) a = v.
Proof.
  intros Hv. unfold load64.
  replace a with (a + 0) at 2 by lia.
  rewrite load_le_store64 by lia.
  change (2 ^ (8 * 0)) with 1. rewrite Z.div_1_r.
  change (8 * Z.of_nat 8) with 64. apply Z.mod_small; exact Hv.
Qed.

Lemma xv6_layout_ok : layout_ok (L := xv6_layout).
Proof. unfold layout_ok, MEMREFS, PGSIZE; cbn. repeat split; try reflexivity; lia. Qed.

Lemma xv6_cow_flag_ok : cow_flag_ok (L := xv6_layout).
Proof. left. reflexivity. Qed.

Section KallocFacts.
Context {L : MemLayout}.

Lemma bad_pa_false_iff (pa : Z) : bad_pa pa = false <-> valid_frame pa.
Proof.
  unfold bad_pa, valid_frame.
  rewrite !orb_false_iff, negb_false_iff, Z.eqb_eq, Z.ltb_ge, Z.leb_gt. tauto.
Qed.

Lemma bad_pa_true_iff (pa : Z) :
  bad_pa pa = true <-> pa mod PGSIZE <> 0 \/ pa < end_ \/ PHYSTOP <= pa.
Proof.
  unfold bad_pa.
  rewrite !orb_true_iff, negb_true_iff, Z.eqb_neq, Z.ltb_lt, Z.leb_le. tauto.
Qed.

(** The index of a managed frame is its page number, and it lies inside
    [memrefs]. *)
Lemma valid_frame_index (pa : Z) :
  layout_ok -> valid_frame pa ->
  frame_index pa = pa / PGSIZE /\ in_table (frame_index pa) = true.
Proof.
  intros (Hend & Hal & Hmax) (Hmod & Hlo & Hhi).
  unfold frame_index, in_table, MEMREFS, PGSIZE in *.
  assert (Hq : 0 <= pa / 4096 < PHYSTOP / 4096).
  { pose proof (Z.div_mod pa 4096). pose proof (Z.div_mod PHYSTOP 4096). lia. }
  rewrite Z.mod_small by lia. split; [reflexivity|].
  apply andb_true_iff; split; [apply Z.leb_le | apply Z.ltb_lt]; lia.
Qed.

Lemma valid_frame_nonzero (pa : Z) : layout_ok -> valid_frame pa -> pa <> 0.
Proof. intros (Hend & _) (_ & Hlo & _). lia. Qed.

(** ** kfree *)

(** On a managed frame whose counter can be decremented, [kfree] runs
    past its checks. *)
Lemma kfree_valid (pa : Z) (s : kstate) :
  layout_ok -> valid_frame pa -> INT_MIN < memrefs s (frame_index pa) ->
  kfree pa s =
    let i := frame_index pa in
    let refs := upd (memrefs s) i (memrefs s i - 1) in
    if memrefs s i - 1 >? 0 then Done tt (mkState refs (freelist s) (phys s))
    else Done tt (mkState refs pa
                    (store64 (memset (phys s) pa 1 PGSIZE) pa (freelist s))).
Proof.
  intros Hok Hv Hc. unfold kfree.
  destruct (valid_frame_index pa Hok Hv) as [_ Hin].
  apply bad_pa_false_iff in Hv. rewrite Hv, Hin. cbn [negb].
  replace (memrefs s (frame_index pa) <=? INT_MIN) with false by ztest.
  reflexivity.
Qed.

Lemma kfree_panics_iff (pa : Z) (s : kstate) :
  (exists msg, kfree pa s = Panic msg) <-> bad_pa pa = true.
Proof.
  unfold kfree. destruct (bad_pa pa).
  - split; [reflexivity | intros _; eexists; reflexivity].
  - split; [|discriminate]. intros [msg H]. cbv zeta in H.
    destruct (negb (in_table (frame_index pa))); [discriminate|].
    destruct (memrefs s (frame_index pa) <=? INT_MIN); [discriminate|].
    destruct (memrefs s (frame_index pa) - 1 >? 0); discriminate.
Qed.

(** What a page pushed by [kfree] holds: the link in its first eight
    bytes, the byte 1 in the rest; memory outside the page is untouched. *)
Lemma freed_page_content (m : memory) (pa head : Z) :
  let m' := store64 (memset m pa 1 PGSIZE) pa head in
  (0 <= head < 2 ^ 64 -> load64 m' pa = head)
  /\ (forall a, pa + 8 <= a < pa + PGSIZE -> m' a = 1)
  /\ (forall a, a < pa \/ pa + PGSIZE <= a -> m' a = m a).
Proof.
  cbv zeta. split; [|split].
  - apply load64_store64.
  - intros a Ha. unfold store64, memset, PGSIZE in *.
    replace ((pa <=? a) && (a <? pa + 8)) with false by ztest.
    replace ((pa <=? a) && (a <? pa + 4096)) with true by ztest.
    reflexivity.
  - intros a Ha. unfold store64, memset, PGSIZE in *.
    replace ((pa <=? a) && (a <? pa + 8)) with false by ztest.
    replace ((pa <=? a) && (a <? pa + 4096)) with false by ztest.
    reflexivity.
Qed.

(** ** incr_ref *)

Lemma incr_ref_valid (pa : Z) (s : kstate) :
  layout_ok -> valid_frame pa -> memrefs s (frame_index pa) < INT_MAX ->
  incr_ref pa s =
    Done 1 (mkState (upd (memrefs s) (frame_index pa) (memrefs s (frame_index pa) + 1))
              (freelist s) (phys s)).
Proof.
  intros Hok Hv Hc. unfold incr_ref.
  destruct (valid_frame_index pa Hok Hv) as [_ Hin].
  apply bad_pa_false_iff in Hv. rewrite Hv, Hin. cbn [negb].
  replace (INT_MAX <=? memrefs s (frame_index pa)) with false by ztest.
  reflexivity.
Qed.

Lemma upd_same (f : Z -> Z) (i v : Z) : upd f i v i = v.
Proof. unfold upd. rewrite Z.eqb_refl. reflexivity. Qed.

Lemma upd_other (f : Z -> Z) (i v j : Z) : j <> i -> upd f i v j = f j.
Proof. intros H. unfold upd. apply Z.eqb_neq in H. rewrite H. reflexivity. Qed.

Lemma store64_byte (m : memory) (a v k : Z) :
  0 <= k < 8 -> store64 m a v (a + k) = (v / 2 ^ (8 * k)) mod 256.
Proof.
  intros Hk. unfold store64.
  replace ((a <=? a + k) && (a + k <? a + 8)) with true by ztest.
  replace (a + k - a) with k by lia.
  rewrite Z.shiftr_div_pow2 by lia.
  change 255 with (Z.ones 8). rewrite Z.land_ones by lia. reflexivity.
Qed.

(** C7: [kfree] stops in [panic] exactly when the address is not
    page-aligned or lies outside [[end, PHYSTOP)].  Otherwise it returns
    with the counter of the frame one lower and every other counter as it
    was.  When the new counter is still above 0, the list head and every
    byte of the memory are as they were.  When it is 0 or below, the page
    has been filled with the byte 1 and pushed onto the head of the free
    list: the head is the page, its first eight bytes hold the old head
    (little-endian, so that the link read back is the old head), its other
    bytes are 1, and no byte outside the page has changed. *)
Theorem kfree_spec (pa : Z) (s : kstate) :
  layout_ok ->
  ((exists msg, kfree pa s = Panic msg) <->
     (pa mod PGSIZE <> 0 \/ pa < end_ \/ PHYSTOP <= pa))
  /\ (valid_frame pa -> INT_MIN < memrefs s (frame_index pa) ->
       0 < memrefs s (frame_index pa) - 1 ->
       exists s',
         kfree pa s = Done tt s'
         /\ memrefs s' (frame_index pa) = memrefs s (frame_index pa) - 1
         /\ (forall j, j <> frame_index pa -> memrefs s' j = memrefs s j)
         /\ freelist s' = freelist s
         /\ (forall a, phys s' a = phys s a))
  /\ (valid_frame pa -> INT_MIN < memrefs s (frame_index pa) ->
       memrefs s (frame_index pa) - 1 <= 0 ->
       exists s',
         kfree pa s = Done tt s'
         /\ memrefs s' (frame_index pa) = memrefs s (frame_index pa) - 1
         /\ (forall j, j <> frame_index pa -> memrefs s' j = memrefs s j)
         /\ freelist s' = pa
         /\ (forall k, 0 <= k < 8 ->
               phys s' (pa + k) = (freelist s / 2 ^ (8 * k)) mod 256)
         /\ (0 <= freelist s < 2 ^ 64 -> load64 (phys s') pa = freelist s)
         /\ (forall a, pa + 8 <= a < pa + PGSIZE -> phys s' a = 1)
         /\ (forall a, a < pa \/ pa + PGSIZE <= a -> phys s' a = phys s a)).
Proof.
  intros Hok. split; [|split].
  - rewrite kfree_panics_iff. apply bad_pa_true_iff.
  - intros Hv Hc Hpos. rewrite kfree_valid by assumption. cbv zeta.
    replace (memrefs s (frame_index pa) - 1 >? 0) with true by ztest.
    eexists. split; [reflexivity|]. cbn [memrefs freelist phys].
    split; [apply upd_same|].
    split; [intros j Hj; apply upd_other; exact Hj|].
    split; [reflexivity | intros a; reflexivity].
  - intros Hv Hc Hle. rewrite kfree_valid by assumption. cbv zeta.
    replace (memrefs s (frame_index pa) - 1 >? 0) with false by ztest.
    eexists. split; [reflexivity|]. cbn [memrefs freelist phys].
    split; [apply upd_same|].
    split; [intros j Hj; apply upd_other; exact Hj|].
    split; [reflexivity|].
    split; [intros k Hk; apply store64_byte; exact Hk|].
    apply freed_page_content.
Qed.

(** C8: [incr_ref] returns -1 exactly when the address is not page-aligned
    or lies outside [[end, PHYSTOP)], and then changes nothing.  Every call
    that succeeds returns 1, has raised the counter of that frame by
    exactly 1, and has left every other counter, the free list and the
    memory as they were; a call on a managed frame succeeds unless the
    counter already holds the largest [int]. *)
Theorem incr_ref_spec (pa : Z) (s : kstate) :
  layout_ok ->
  ((exists s', incr_ref pa s = Done (-1) s') <->
     (pa mod PGSIZE <> 0 \/ pa < end_ \/ PHYSTOP <= pa))
  /\ (forall s', incr_ref pa s = Done (-1) s' -> s' = s)
  /\ (forall v s', incr_ref pa s = Done v s' -> v <> -1 ->
        v = 1
        /\ memrefs s' (frame_index pa) = memrefs s (frame_index pa) + 1
        /\ (forall j, j <> frame_index pa -> memrefs s' j = memrefs s j)
        /\ freelist s' = freelist s
        /\ phys s' = phys s)
  /\ (valid_frame pa -> memrefs s (frame_index pa) < INT_MAX ->
        exists s', incr_ref pa s = Done 1 s').
Proof.
  intros Hok. split; [|split; [|split]].
  - rewrite <- bad_pa_true_iff. unfold incr_ref. destruct (bad_pa pa).
    + split; [reflexivity | intros _; eexists; reflexivity].
    + split; [|discriminate]. intros [s' H]. cbv zeta in H.
      destruct (negb (in_table (frame_index pa))); [discriminate|].
      destruct (INT_MAX <=? memrefs s (frame_index pa)); discriminate.
  - intros s' H. unfold incr_ref in H. destruct (bad_pa pa).
    + inversion H; reflexivity.
    + cbv zeta in H.
      destruct (negb (in_table (frame_index pa))); [discriminate|].
      destruct (INT_MAX <=? memrefs s (frame_index pa)); discriminate.
  - intros v s' H Hv. unfold incr_ref in H. destruct (bad_pa pa).
    + inversion H; subst; contradiction.
    + cbv zeta in H.
      destruct (negb (in_table (frame_index pa))); [discriminate|].
      destruct (INT_MAX <=? memrefs s (frame_index pa)); [discriminate|].
      inversion H; subst; clear H. cbn [memrefs freelist phys].
      repeat split.
      * apply upd_same.
      * intros j Hj. apply upd_other; exact Hj.
  - intros Hv Hc. eexists. apply incr_ref_valid; assumption.
Qed.

(** ** kalloc *)

Lemma kalloc_empty (s : kstate) : freelist s = 0 -> kalloc s = Done 0 s.
Proof. intros H. unfold kalloc. rewrite H. reflexivity. Qed.

Lemma kalloc_head (s : kstate) :
  freelist s <> 0 -> in_table (frame_index (freelist s)) = true ->
  kalloc s =
    Done (freelist s)
      (mkState (upd (memrefs s) (frame_index (freelist s)) 1)
         (load64 (phys s) (freelist s))
         (memset (phys s) (freelist s) 5 PGSIZE)).
Proof.
  intros Hne Hin. unfold kalloc.
  apply Z.eqb_neq in Hne. rewrite Hne, Hin. reflexivity.
Qed.

Lemma memset_inside (m : memory) (dst c n a : Z) :
  dst <= a < dst + n -> memset m dst c n a = c mod 256.
Proof.
  intros H. unfold memset.
  replace ((dst <=? a) && (a <? dst + n)) with true by ztest.
  reflexivity.
Qed.

Lemma memset_outside (m : memory) (dst c n a : Z) :
  a < dst \/ dst + n <= a -> memset m dst c n a = m a.
Proof.
  intros H. unfold memset.
  replace ((dst <=? a) && (a <? dst + n)) with false by ztest.
  reflexivity.
Qed.

(** C6: a call of [kalloc] that returns a frame returns the head of the
    free list, leaves its counter at exactly 1 whatever it was, and has
    filled the whole page with the byte 5; the new head is the link the
    page held.  The call succeeds whenever the list is not empty and its
    head is a frame of the table.  The head is the frame freed last: after
    a [kfree] that pushes [pa], the next [kalloc] returns [pa] and the
    list head is what it was before the [kfree]. *)
Theorem kalloc_spec (s : kstate) :
  layout_ok ->
  (forall r s', kalloc s = Done r s' -> r <> 0 ->
     r = freelist s
     /\ memrefs s' (frame_index r) = 1
     /\ (forall j, j <> frame_index r -> memrefs s' j = memrefs s j)
     /\ (forall a, r <= a < r + PGSIZE -> phys s' a = 5)
     /\ (forall a, a < r \/ r + PGSIZE <= a -> phys s' a = phys s a)
     /\ freelist s' = load64 (phys s) r)
  /\ (freelist s <> 0 -> in_table (frame_index (freelist s)) = true ->
      exists s', kalloc s = Done (freelist s) s')
  /\ (forall pa s1, valid_frame pa -> kfree pa s = Done tt s1 ->
      memrefs s (frame_index pa) - 1 <= 0 -> 0 <= freelist s < 2 ^ 64 ->
      exists s2, kalloc s1 = Done pa s2 /\ freelist s2 = freelist s).
Proof.
  intros Hok. split; [|split].
  - intros r s' H Hr. unfold kalloc in H.
    destruct (freelist s =? 0) eqn:E.
    + inversion H; subst; contradiction.
    + destruct (negb (in_table (frame_index (freelist s)))); [discriminate|].
      inversion H; subst; clear H. cbn [memrefs freelist phys].
      split; [reflexivity|]. split; [apply upd_same|].
      split; [intros j Hj; apply upd_other; exact Hj|].
      split; [intros a Ha; apply memset_inside; exact Ha|].
      split; [intros a Ha; apply memset_outside; exact Ha|reflexivity].
  - intros Hne Hin. eexists. apply kalloc_head; assumption.
  - intros pa s1 Hv Hfree Hle Hhead.
    assert (Hc : INT_MIN < memrefs s (frame_index pa)).
    { unfold kfree in Hfree. apply bad_pa_false_iff in Hv. rewrite Hv in Hfree.
      cbv zeta in Hfree.
      destruct (negb (in_table (frame_index pa))); [discriminate|].
      destruct (memrefs s (frame_index pa) <=? INT_MIN) eqn:E; [discriminate|].
      apply Z.leb_gt in E. exact E. }
    rewrite kfree_valid in Hfree by assumption. cbv zeta in Hfree.
    replace (memrefs s (frame_index pa) - 1 >? 0) with false in Hfree
      by ztest.
    inversion Hfree; subst; clear Hfree.
    destruct (valid_frame_index pa Hok Hv) as [_ Hin].
    eexists. split.
    + apply kalloc_head; cbn [freelist]; [apply valid_frame_nonzero|]; assumption.
    + cbn [freelist phys]. apply load64_store64; exact Hhead.
Qed.

(** ** Page-table entries and the translation service *)

Lemma testbit_PTE_V (n : Z) : Z.testbit PTE_V n = (n =? 0).
Proof. change PTE_V with (2 ^ 0). rewrite Z.pow2_bits_eqb by lia. apply Z.eqb_sym. Qed.

Lemma testbit_PTE_W (n : Z) : Z.testbit PTE_W n = (n =? 2).
Proof. change PTE_W with (2 ^ 2). rewrite Z.pow2_bits_eqb by lia. apply Z.eqb_sym. Qed.

Lemma testbit_PTE_COW (n : Z) :
  cow_flag_ok -> Z.testbit PTE_COW n = (n =? Z.log2 PTE_COW) /\ 8 <= Z.log2 PTE_COW <= 9.
Proof.
  intros [H|H]; rewrite H.
  - rewrite Z.pow2_bits_eqb by lia. rewrite Z.log2_pow2 by lia. split; [apply Z.eqb_sym | lia].
  - rewrite Z.pow2_bits_eqb by lia. rewrite Z.log2_pow2 by lia. split; [apply Z.eqb_sym | lia].
Qed.

Lemma testbit_flags_mask (n : Z) : 0 <= n -> Z.testbit 1023 n = (n <? 10).
Proof.
  intros Hn. change 1023 with (Z.ones 10).
  rewrite Z.testbit_ones_nonneg by lia. reflexivity.
Qed.

Lemma land_pow2 (x k : Z) :
  0 <= k -> Z.land x (2 ^ k) = if Z.testbit x k then 2 ^ k else 0.
Proof.
  intros Hk. apply Z.bits_inj'. intros n Hn.
  rewrite Z.land_spec, Z.pow2_bits_eqb by lia.
  destruct (Z.eqb_spec k n) as [->|Hne].
  - rewrite andb_true_r. destruct (Z.testbit x n) eqn:E.
    + rewrite Z.pow2_bits_true by lia. reflexivity.
    + rewrite Z.bits_0. reflexivity.
  - rewrite andb_false_r. destruct (Z.testbit x k).
    + rewrite Z.pow2_bits_false by lia. reflexivity.
    + rewrite Z.bits_0. reflexivity.
Qed.


Lemma grant_write_bits (e n : Z) :
  0 <= n ->
  Z.testbit (grant_write e) n = (Z.testbit e n || (n =? 2)) && negb (Z.testbit PTE_COW n).
Proof.
  intros Hn. unfold grant_write.
  rewrite Z.land_spec, Z.lor_spec, Z.lnot_spec, testbit_PTE_W by lia. reflexivity.
Qed.

Lemma PTE2PA_high (a b : Z) :
  (forall n, 10 <= n -> Z.testbit a n = Z.testbit b n) -> PTE2PA a = PTE2PA b.
Proof.
  intros H. unfold PTE2PA. do 2 f_equal.
  apply Z.bits_inj'. intros n Hn. rewrite !Z.shiftr_spec by lia. apply H. lia.
Qed.

Lemma land_PTE_COW (x : Z) :
  cow_flag_ok ->
  Z.land x PTE_COW = if Z.testbit x (Z.log2 PTE_COW) then PTE_COW else 0.
Proof.
  intros [H|H]; rewrite H; rewrite Z.log2_pow2 by lia; apply land_pow2; lia.
Qed.

Lemma grant_write_spec (e : Z) :
  cow_flag_ok ->
  Z.land (grant_write e) PTE_W = PTE_W
  /\ Z.land (grant_write e) PTE_COW = 0
  /\ PTE2PA (grant_write e) = PTE2PA e
  /\ (forall n, n <> 2 -> Z.testbit PTE_COW n = false ->
        Z.testbit (grant_write e) n = Z.testbit e n).
Proof.
  intros Hcow.
  assert (Hc : forall n, Z.testbit PTE_COW n = (n =? Z.log2 PTE_COW))
    by (intros n; apply testbit_PTE_COW; exact Hcow).
  destruct (testbit_PTE_COW 0 Hcow) as [_ Hlog].
  split; [|split; [|split]].
  - change PTE_W with (2 ^ 2). rewrite land_pow2 by lia.
    rewrite grant_write_bits, Hc by lia.
    replace (2 =? Z.log2 PTE_COW) with false by ztest.
    rewrite orb_true_r. reflexivity.
  - rewrite land_PTE_COW by exact Hcow.
    rewrite grant_write_bits, Hc, Z.eqb_refl by lia.
    rewrite andb_false_r. reflexivity.
  - apply PTE2PA_high. intros n Hn.
    rewrite grant_write_bits, Hc by lia.
    replace (n =? 2) with false by ztest.
    replace (n =? Z.log2 PTE_COW) with false by ztest.
    rewrite orb_false_r, andb_true_r. reflexivity.
  - intros n Hn2 Hnc. destruct (Z.ltb_spec n 0) as [Hneg|Hpos].
    + rewrite !Z.testbit_neg_r by lia. reflexivity.
    + rewrite grant_write_bits, Hnc by lia.
      replace (n =? 2) with false by ztest.
      rewrite orb_false_r, andb_true_r. reflexivity.
Qed.

Lemma remapped_bits (e g n : Z) :
  0 <= n ->
  Z.testbit (remapped e g) n =
    (if n <? 10 then false else Z.testbit g (n + 2))
    || (((Z.testbit e n && negb (n =? 0)) && (n <? 10)) || (n =? 2)) && negb (Z.testbit PTE_COW n)
    || (n =? 0).
Proof.
  intros Hn. unfold remapped, PA2PTE, PTE_FLAGS.
  rewrite !Z.lor_spec, !Z.land_spec, !Z.lor_spec, !Z.land_spec, !Z.lnot_spec by lia.
  rewrite testbit_PTE_V, testbit_PTE_W, testbit_flags_mask by lia.
  f_equal. f_equal.
  destruct (Z.ltb_spec n 10) as [Hlt|Hge].
  - rewrite Z.shiftl_spec_low by lia. reflexivity.
  - rewrite Z.shiftl_spec, Z.shiftr_spec by lia. f_equal. lia.
Qed.

Lemma remapped_spec (e g : Z) :
  cow_flag_ok -> g mod PGSIZE = 0 -> 0 <= g < 2 ^ 64 ->
  PTE2PA (remapped e g) = g
  /\ Z.land (remapped e g) PTE_V = PTE_V
  /\ Z.land (remapped e g) PTE_W = PTE_W
  /\ Z.land (remapped e g) PTE_COW = 0
  /\ (forall n, 0 < n < 10 -> n <> 2 -> Z.testbit PTE_COW n = false ->
        Z.testbit (remapped e g) n = Z.testbit e n).
Proof.
  intros Hcow Hal Hg.
  assert (Hc : forall n, Z.testbit PTE_COW n = (n =? Z.log2 PTE_COW))
    by (intros n; apply testbit_PTE_COW; exact Hcow).
  destruct (testbit_PTE_COW 0 Hcow) as [_ Hlog].
  split; [|split; [|split; [|split]]].
  - unfold PTE2PA.
    replace (Z.shiftr (remapped e g) 10) with (Z.shiftr g 12).
    + rewrite Z.shiftl_mul_pow2, Z.shiftr_div_pow2 by lia.
      change (2 ^ 12) with 4096. unfold PGSIZE in Hal.
      pose proof (Z.div_mod g 4096).
      replace (g / 4096 * 4096) with g by lia.
      apply Z.mod_small; exact Hg.
    + apply Z.bits_inj'. intros n Hn.
      rewrite !Z.shiftr_spec, remapped_bits by lia.
      replace (n + 10 <? 10) with false by ztest.
      replace (n + 10 =? 2) with false by ztest.
      replace (n + 10 =? 0) with false by ztest.
      rewrite andb_false_r. cbn [orb andb]. rewrite !orb_false_r.
      f_equal. lia.
  - change PTE_V with (2 ^ 0). rewrite land_pow2 by lia.
    rewrite remapped_bits by lia. cbn. rewrite orb_true_r. reflexivity.
  - change PTE_W with (2 ^ 2). rewrite land_pow2 by lia.
    rewrite remapped_bits, Hc by lia.
    replace (2 =? Z.log2 PTE_COW) with false by ztest.
    cbn. rewrite orb_true_r. reflexivity.
  - rewrite land_PTE_COW by exact Hcow.
    rewrite remapped_bits, Hc, Z.eqb_refl by lia.
    replace (Z.log2 PTE_COW <? 10) with true by ztest.
    replace (Z.log2 PTE_COW =? 0) with false by ztest.
    cbn [negb]. rewrite andb_false_r. reflexivity.
  - intros n Hn Hn2 Hnc.
    rewrite remapped_bits, Hnc by lia.
    replace (n <? 10) with true by ztest.
    replace (n =? 2) with false by ztest.
    replace (n =? 0) with false by ztest.
    cbn [negb orb]. rewrite !andb_true_r, !orb_false_r. reflexivity.
Qed.

(** ** The branches of cowcopy *)

Lemma walk_found (pagetable : pagetable_t) (va e : Z) :
  pagetable (vpn va) = Some e ->
  walk pagetable (PGROUNDDOWN va) = Some (vpn va) /\ load_pte pagetable (vpn va) = e.
Proof.
  intros H. unfold walk, load_pte. rewrite vpn_PGROUNDDOWN, H. split; reflexivity.
Qed.

Lemma walk_absent (pagetable : pagetable_t) (va : Z) :
  pagetable (vpn va) = None -> walk pagetable (PGROUNDDOWN va) = None.
Proof. intros H. unfold walk. rewrite vpn_PGROUNDDOWN, H. reflexivity. Qed.

Lemma load_pte_store (pagetable : pagetable_t) (k e : Z) :
  load_pte (store_pte pagetable k e) k = e.
Proof. unfold load_pte, store_pte. rewrite Z.eqb_refl. reflexivity. Qed.

Lemma store_pte_same (pagetable : pagetable_t) (k e : Z) :
  store_pte pagetable k e k = Some e.
Proof. unfold store_pte. rewrite Z.eqb_refl. reflexivity. Qed.

Lemma store_pte_other (pagetable : pagetable_t) (k e j : Z) :
  j <> k -> store_pte pagetable k e j = pagetable j.
Proof. intros H. unfold store_pte. apply Z.eqb_neq in H. rewrite H. reflexivity. Qed.

(** One page at a page boundary: [mappages] writes one entry. *)
Lemma mappages_one_page (pagetable : pagetable_t) (va pa perm : Z) :
  mappages true pagetable (PGROUNDDOWN va) PGSIZE pa perm =
    Some (store_pte pagetable (vpn va) (Z.lor (Z.lor (PA2PTE pa) perm) PTE_V)).
Proof.
  unfold mappages.
  assert (H1 : PGROUNDDOWN (PGROUNDDOWN va) = PGROUNDDOWN va).
  { rewrite (PGROUNDDOWN_eq (PGROUNDDOWN va)).
    change (PGROUNDDOWN va / PGSIZE) with (vpn (PGROUNDDOWN va)).
    rewrite vpn_PGROUNDDOWN. rewrite PGROUNDDOWN_eq. reflexivity. }
  assert (H2 : PGROUNDDOWN (PGROUNDDOWN va + PGSIZE - 1) = PGROUNDDOWN va).
  { rewrite (PGROUNDDOWN_eq (_ + _ - _)), (PGROUNDDOWN_eq va). unfold PGSIZE.
    f_equal. pose proof (Z.div_mod va 4096).
    symmetry. apply (Z.div_unique _ 4096 _ 4095); lia. }
  rewrite H1, H2, Z.sub_diag, vpn_PGROUNDDOWN. reflexivity.
Qed.

Lemma frame_index_inj (f g : Z) :
  layout_ok -> valid_frame f -> valid_frame g -> f <> g ->
  frame_index f <> frame_index g.
Proof.
  intros Hok Hf Hg Hne.
  destruct (valid_frame_index f Hok Hf) as [Ef _].
  destruct (valid_frame_index g Hok Hg) as [Eg _].
  rewrite Ef, Eg. destruct Hf as [Hf _]. destruct Hg as [Hg _].
  unfold PGSIZE in *.
  pose proof (Z.div_mod f 4096). pose proof (Z.div_mod g 4096). lia.
Qed.

(** The sole-owner branch. *)
Lemma cowcopy_in_place (mapok : bool) (pagetable : pagetable_t) (va e : Z) (s : kstate) :
  pagetable (vpn va) = Some e ->
  in_table (frame_index (PTE2PA e)) = true ->
  memrefs s (frame_index (PTE2PA e)) = 1 ->
  cowcopy mapok pagetable va s =
    Done (PTE2PA e,
          store_pte (store_pte pagetable (vpn va) (Z.lor e PTE_W)) (vpn va) (grant_write e)) s.
Proof.
  intros He Hin Hc. unfold cowcopy.
  destruct (walk_found pagetable va e He) as [Hw Hl].
  rewrite Hw. cbv zeta. rewrite Hl, Hin, Hc, load_pte_store. reflexivity.
Qed.

(** The duplicating branch, up to the call of [kalloc]. *)
Lemma cowcopy_shared (mapok : bool) (pagetable : pagetable_t) (va e : Z) (s : kstate) :
  pagetable (vpn va) = Some e ->
  in_table (frame_index (PTE2PA e)) = true ->
  memrefs s (frame_index (PTE2PA e)) <> 1 ->
  cowcopy mapok pagetable va s =
    call mem, s <- kalloc s ;;
    if mem =? 0 then Done (0, pagetable) s
    else
      let s := mkState (memrefs s) (freelist s) (memmove (phys s) mem (PTE2PA e) PGSIZE) in
      let pagetable1 := store_pte pagetable (vpn va) (Z.land e (Z.lnot PTE_V)) in
      match mappages mapok pagetable1 (PGROUNDDOWN va) PGSIZE mem
              (Z.land (Z.lor (PTE_FLAGS (Z.land e (Z.lnot PTE_V))) PTE_W) (Z.lnot PTE_COW)) with
      | None => call _u, s <- kfree mem s ;; Done (0, pagetable1) s
      | Some pagetable2 => call _u, s <- kfree (PGROUNDDOWN (PTE2PA e)) s ;; Done (mem, pagetable2) s
      end.
Proof.
  intros He Hin Hc. unfold cowcopy.
  destruct (walk_found pagetable va e He) as [Hw Hl].
  rewrite Hw. cbv zeta. rewrite Hl, Hin. cbn [negb].
  apply Z.eqb_neq in Hc. rewrite Hc, load_pte_store. reflexivity.
Qed.

(** ** cowcopy *)

(** C3: when the frame of the faulting mapping has exactly one reference,
    [cowcopy] returns the address of that frame and leaves the allocator
    state as it found it (nothing allocated, nothing copied, no counter
    changed); the entry is rewritten in place with [PTE_W] set and
    [PTE_COW] clear, same frame, every other bit as before, and no other
    slot of the table changes. *)
Theorem cowcopy_sole_owner (mapok : bool) (pagetable : pagetable_t) (va e : Z) (s : kstate) :
  cow_flag_ok ->
  pagetable (vpn va) = Some e ->
  in_table (frame_index (PTE2PA e)) = true ->
  memrefs s (frame_index (PTE2PA e)) = 1 ->
  exists pagetable',
    cowcopy mapok pagetable va s = Done (PTE2PA e, pagetable') s
    /\ pagetable' (vpn va) = Some (grant_write e)
    /\ (forall k, k <> vpn va -> pagetable' k = pagetable k)
    /\ Z.land (grant_write e) PTE_W = PTE_W
    /\ Z.land (grant_write e) PTE_COW = 0
    /\ PTE2PA (grant_write e) = PTE2PA e
    /\ (forall n, n <> 2 -> Z.testbit PTE_COW n = false ->
          Z.testbit (grant_write e) n = Z.testbit e n).
Proof.
  intros Hcow He Hin Hc.
  eexists. split; [apply cowcopy_in_place; assumption|].
  split; [apply store_pte_same|].
  split; [intros k Hk; rewrite !store_pte_other by exact Hk; reflexivity|].
  apply grant_write_spec; exact Hcow.
Qed.

Lemma memmove_inside (m : memory) (dst src n a : Z) :
  0 <= a < n -> memmove m dst src n (dst + a) = m (src + a).
Proof.
  intros H. unfold memmove.
  replace ((dst <=? dst + a) && (dst + a <? dst + n)) with true by ztest.
  f_equal. lia.
Qed.

Lemma memmove_outside (m : memory) (dst src n a : Z) :
  a < dst \/ dst + n <= a -> memmove m dst src n a = m a.
Proof.
  intros H. unfold memmove.
  replace ((dst <=? a) && (a <? dst + n)) with false by ztest.
  reflexivity.
Qed.

(** Two distinct managed frames do not overlap. *)
Lemma valid_frames_apart (f g : Z) :
  valid_frame f -> valid_frame g -> f <> g -> f + PGSIZE <= g \/ g + PGSIZE <= f.
Proof.
  intros [Hf _] [Hg _] Hne. unfold PGSIZE in *.
  pose proof (Z.div_mod f 4096). pose proof (Z.div_mod g 4096). lia.
Qed.

Lemma valid_frame_uint64 (pa : Z) : layout_ok -> valid_frame pa -> 0 <= pa < 2 ^ 64.
Proof.
  intros (Hend & Hal & Hmax) (_ & Hlo & Hhi). unfold MEMREFS, PGSIZE in *.
  pose proof (Z.div_mod PHYSTOP 4096). lia.
Qed.

(** C4: when the frame [f] of the faulting mapping has more than one
    reference, the free list yields a frame [g] and [mappages] succeeds,
    [cowcopy] returns [g]; the page [g] holds the bytes page [f] held;
    the entry of the faulting address now names [g], valid, with [PTE_W]
    set and [PTE_COW] clear and the other flag bits of the old entry; the
    counter of [f] is one less, the counter of [g] is 1.  Nothing else
    changes: no other slot, no other counter, no byte outside page [g]. *)
Theorem cowcopy_duplicates (pagetable : pagetable_t) (va e : Z) (s : kstate) :
  layout_ok -> cow_flag_ok ->
  pagetable (vpn va) = Some e ->
  valid_frame (PTE2PA e) ->
  1 < memrefs s (frame_index (PTE2PA e)) ->
  valid_frame (freelist s) ->
  freelist s <> PTE2PA e ->
  exists pagetable' s',
    cowcopy true pagetable va s = Done (freelist s, pagetable') s'
    /\ (forall a, 0 <= a < PGSIZE -> phys s' (freelist s + a) = phys s (PTE2PA e + a))
    /\ (forall a, a < freelist s \/ freelist s + PGSIZE <= a -> phys s' a = phys s a)
    /\ pagetable' (vpn va) = Some (remapped e (freelist s))
    /\ (forall k, k <> vpn va -> pagetable' k = pagetable k)
    /\ PTE2PA (remapped e (freelist s)) = freelist s
    /\ Z.land (remapped e (freelist s)) PTE_V = PTE_V
    /\ Z.land (remapped e (freelist s)) PTE_W = PTE_W
    /\ Z.land (remapped e (freelist s)) PTE_COW = 0
    /\ (forall n, 0 < n < 10 -> n <> 2 -> Z.testbit PTE_COW n = false ->
          Z.testbit (remapped e (freelist s)) n = Z.testbit e n)
    /\ memrefs s' (frame_index (PTE2PA e)) = memrefs s (frame_index (PTE2PA e)) - 1
    /\ memrefs s' (frame_index (freelist s)) = 1
    /\ (forall j, j <> frame_index (PTE2PA e) -> j <> frame_index (freelist s) ->
          memrefs s' j = memrefs s j)
    /\ freelist s' = load64 (phys s) (freelist s).
Proof.
  intros Hok Hcow He Hf Hc Hg Hne.
  set (f := PTE2PA e) in *. set (g := freelist s) in *.
  destruct (valid_frame_index f Hok Hf) as [_ Hinf].
  destruct (valid_frame_index g Hok Hg) as [_ Hing].
  pose proof (valid_frame_nonzero g Hok Hg) as Hg0.
  pose proof (frame_index_inj f g Hok Hf Hg (not_eq_sym Hne)) as Hidx.
  pose proof (valid_frames_apart f g Hf Hg (not_eq_sym Hne)) as Hapart.
  rewrite (cowcopy_shared true pagetable va e s He Hinf) by (fold f; lia).
  rewrite kalloc_head by assumption. fold g f. cbn [bind].
  apply Z.eqb_neq in Hg0. rewrite Hg0. cbv zeta. cbn [memrefs freelist phys].
  rewrite mappages_one_page.
  rewrite PGROUNDDOWN_aligned by (destruct Hf; assumption).
  rewrite kfree_valid
    by (try assumption; cbn [memrefs]; rewrite upd_other by exact Hidx; unfold INT_MIN; lia).
  cbv zeta. cbn [memrefs freelist phys].
  rewrite (upd_other _ _ _ _ Hidx).
  replace (memrefs s (frame_index f) - 1 >? 0) with true by ztest.
  cbn [bind]. do 2 eexists. split; [reflexivity|]. cbn [memrefs freelist phys].
  split.
  { intros a Ha. rewrite memmove_inside by exact Ha.
    apply memset_outside. lia. }
  split.
  { intros a Ha. rewrite memmove_outside by exact Ha. apply memset_outside; exact Ha. }
  split; [apply store_pte_same|].
  split; [intros k Hk; rewrite !store_pte_other by exact Hk; reflexivity|].
  destruct (remapped_spec e g Hcow) as (R1 & R2 & R3 & R4 & R5);
    [destruct Hg; assumption | apply valid_frame_uint64; assumption |].
  repeat (split; [assumption|]).
  split; [apply upd_same|].
  split; [rewrite upd_other by (apply not_eq_sym; exact Hidx); apply upd_same|].
  split; [|reflexivity].
  intros j Hjf Hjg. rewrite !upd_other by assumption. reflexivity.
Qed.

(** C1: what [cowcopy] does when [mappages] fails after a frame [g] was
    allocated: it returns 0 and gives [g] back ([g] heads the free list
    again, its counter is 0), the counter of the original frame is what it
    was, and the entry of the faulting address is the old entry with the
    valid bit cleared.  The mapping is left invalid: the source clears
    [PTE_V] before the call of [mappages] and the [freeing] path does not
    set it again. *)
Theorem cowcopy_install_failure (pagetable : pagetable_t) (va e : Z) (s : kstate) :
  layout_ok ->
  pagetable (vpn va) = Some e ->
  valid_frame (PTE2PA e) ->
  1 < memrefs s (frame_index (PTE2PA e)) ->
  valid_frame (freelist s) ->
  freelist s <> PTE2PA e ->
  exists pagetable' s',
    cowcopy false pagetable va s = Done (0, pagetable') s'
    /\ pagetable' (vpn va) = Some (Z.land e (Z.lnot PTE_V))
    /\ Z.land (Z.land e (Z.lnot PTE_V)) PTE_V = 0
    /\ (forall k, k <> vpn va -> pagetable' k = pagetable k)
    /\ freelist s' = freelist s
    /\ memrefs s' (frame_index (freelist s)) = 0
    /\ memrefs s' (frame_index (PTE2PA e)) = memrefs s (frame_index (PTE2PA e)).
Proof.
  intros Hok He Hf Hc Hg Hne.
  set (f := PTE2PA e) in *. set (g := freelist s) in *.
  destruct (valid_frame_index f Hok Hf) as [_ Hinf].
  destruct (valid_frame_index g Hok Hg) as [_ Hing].
  pose proof (valid_frame_nonzero g Hok Hg) as Hg0.
  pose proof (frame_index_inj f g Hok Hf Hg (not_eq_sym Hne)) as Hidx.
  rewrite (cowcopy_shared false pagetable va e s He Hinf) by (fold f; lia).
  rewrite kalloc_head by assumption. fold g f. cbn [bind].
  apply Z.eqb_neq in Hg0. rewrite Hg0. cbv zeta. cbn [memrefs freelist phys mappages].
  rewrite kfree_valid
    by (try assumption; cbn [memrefs]; rewrite upd_same; unfold INT_MIN; lia).
  cbv zeta. cbn [memrefs freelist phys]. rewrite upd_same.
  cbn [bind Z.sub Z.add Z.opp Z.pos_sub Z.gtb Z.compare].
  do 2 eexists. split; [reflexivity|]. cbn [memrefs freelist phys].
  split; [apply store_pte_same|].
  split.
  { change PTE_V with (2 ^ 0). rewrite land_pow2 by lia.
    rewrite Z.land_spec, Z.lnot_spec, Z.pow2_bits_true by lia.
    cbn [negb]. rewrite andb_false_r. reflexivity. }
  split; [intros k Hk; rewrite store_pte_other by exact Hk; reflexivity|].
  split; [reflexivity|].
  split; [apply upd_same|].
  rewrite !upd_other by exact Hidx. reflexivity.
Qed.

(** C5: with an empty free list [kalloc] returns 0 and the state is the
    state it was called in; and [cowcopy] on a mapping whose frame has more
    than one reference returns 0 as well, with the page table and the
    state (counters, list, memory) exactly as before the call. *)
Theorem exhaustion_spec (mapok : bool) (pagetable : pagetable_t) (va e : Z) (s : kstate) :
  freelist s = 0 ->
  kalloc s = Done 0 s
  /\ (pagetable (vpn va) = Some e ->
      in_table (frame_index (PTE2PA e)) = true ->
      1 < memrefs s (frame_index (PTE2PA e)) ->
      cowcopy mapok pagetable va s = Done (0, pagetable) s).
Proof.
  intros Hempty. split; [apply kalloc_empty; exact Hempty|].
  intros He Hin Hc.
  rewrite (cowcopy_shared mapok pagetable va e s He Hin) by lia.
  rewrite kalloc_empty by exact Hempty. reflexivity.
Qed.

(** C2, as the code has it: [cowcopy] does not check what the lookup
    returns.  With no slot for the address it dereferences the null
    pointer: the call has no defined behaviour, and returns no value.
    With a slot whose entry is not valid, and whose frame index lies
    inside the counter table, it does not always fail: when the counter
    of that frame is 1 it sets the write flag and clears the
    copy-on-write flag of the entry in place and returns the frame
    address; when the counter is not 1 and the free list is empty it
    returns 0 and changes nothing.  Nothing is said of the remaining
    case, a counter other than 1 with a free page at hand. *)
Theorem cowcopy_unchecked_lookup (mapok : bool) (pagetable : pagetable_t) (va : Z) (s : kstate) :
  (pagetable (vpn va) = None -> cowcopy mapok pagetable va s = Undefined)
  /\ (forall e, pagetable (vpn va) = Some e -> Z.land e PTE_V = 0 ->
        in_table (frame_index (PTE2PA e)) = true ->
        (memrefs s (frame_index (PTE2PA e)) = 1 ->
           exists pagetable',
             cowcopy mapok pagetable va s = Done (PTE2PA e, pagetable') s
             /\ pagetable' (vpn va) = Some (grant_write e))
        /\ (memrefs s (frame_index (PTE2PA e)) <> 1 -> freelist s = 0 ->
              cowcopy mapok pagetable va s = Done (0, pagetable) s)).
Proof.
  split.
  - intros Hnone. unfold cowcopy. rewrite walk_absent by exact Hnone. reflexivity.
  - intros e He _ Hin. split.
    + intros Hc. eexists. split; [apply cowcopy_in_place; assumption|].
      apply store_pte_same.
    + intros Hc Hempty.
      rewrite (cowcopy_shared mapok pagetable va e s He Hin Hc).
      rewrite kalloc_empty by exact Hempty. reflexivity.
Qed.

(** ** iscow *)

Lemma to_int_cow_flag (e : Z) :
  cow_flag_ok -> to_int (Z.land e PTE_COW) = Z.land e PTE_COW.
Proof.
  intros Hcow. rewrite land_PTE_COW by exact Hcow.
  destruct (Z.testbit e (Z.log2 PTE_COW)); [|reflexivity].
  destruct Hcow as [H|H]; rewrite H; reflexivity.
Qed.

Lemma iscow_found (pagetable : pagetable_t) (va e : Z) :
  va <= MAXVA -> pagetable (vpn va) = Some e ->
  iscow pagetable va = if Z.land e PTE_V =? 0 then 0 else to_int (Z.land e PTE_COW).
Proof.
  intros Hva He. unfold iscow, walk, load_pte.
  replace (va >? MAXVA) with false by ztest.
  rewrite He, He. reflexivity.
Qed.

(** C9: [iscow] returns 0 for an address above [MAXVA], for an address
    with no slot in the table, for an entry that is not valid and for an
    entry whose copy-on-write flag is clear; its result is non-zero
    exactly when the address is at most [MAXVA] and the table holds a
    valid entry for it with the copy-on-write flag set. *)
Theorem iscow_spec (pagetable : pagetable_t) (va : Z) :
  cow_flag_ok ->
  (MAXVA < va -> iscow pagetable va = 0)
  /\ (pagetable (vpn va) = None -> iscow pagetable va = 0)
  /\ (forall e, pagetable (vpn va) = Some e -> Z.land e PTE_V = 0 ->
        iscow pagetable va = 0)
  /\ (forall e, pagetable (vpn va) = Some e -> Z.land e PTE_COW = 0 ->
        iscow pagetable va = 0)
  /\ (iscow pagetable va <> 0 <->
        va <= MAXVA /\
        exists e, pagetable (vpn va) = Some e
                  /\ Z.land e PTE_V <> 0 /\ Z.land e PTE_COW <> 0).
Proof.
  intros Hcow.
  assert (Habove : MAXVA < va -> iscow pagetable va = 0).
  { intros H. unfold iscow.
    replace (va >? MAXVA) with true by ztest.
    reflexivity. }
  assert (Hnone : pagetable (vpn va) = None -> iscow pagetable va = 0).
  { intros H. unfold iscow, walk. rewrite H. destruct (va >? MAXVA); reflexivity. }
  assert (Hinv : forall e, pagetable (vpn va) = Some e -> Z.land e PTE_V = 0 ->
                           iscow pagetable va = 0).
  { intros e He Hv. destruct (Z.lt_ge_cases MAXVA va) as [Hlt|Hge]; [auto|].
    rewrite (iscow_found pagetable va e Hge He), Hv. reflexivity. }
  assert (Hclr : forall e, pagetable (vpn va) = Some e -> Z.land e PTE_COW = 0 ->
                           iscow pagetable va = 0).
  { intros e He Hc. destruct (Z.lt_ge_cases MAXVA va) as [Hlt|Hge]; [auto|].
    rewrite (iscow_found pagetable va e Hge He), Hc.
    destruct (Z.land e PTE_V =? 0); reflexivity. }
  repeat (split; [assumption|]).
  split.
  - intros Hnz.
    destruct (Z.lt_ge_cases MAXVA va) as [Hlt|Hge]; [elim Hnz; auto|].
    split; [exact Hge|].
    destruct (pagetable (vpn va)) as [e|] eqn:He; [|elim Hnz; auto].
    exists e. split; [reflexivity|]. split; intros H; apply Hnz.
    + apply (Hinv e); [reflexivity | exact H].
    + apply (Hclr e); [reflexivity | exact H].
  - intros (Hva & e & He & Hv & Hc).
    rewrite (iscow_found pagetable va e Hva He).
    apply Z.eqb_neq in Hv. rewrite Hv, to_int_cow_flag by exact Hcow. exact Hc.
Qed.

(** ** Freeing a frame twice *)

Lemma load_le_ext (n : nat) (m m' : memory) :
  forall p, (forall a, p <= a < p + Z.of_nat n -> m' a = m a) ->
  load_le n m' p = load_le n m p.
Proof.
  induction n as [|n IH]; intros p H; [reflexivity|].
  cbn [load_le]. rewrite H by lia. rewrite IH; [reflexivity|].
  intros a Ha. apply H. lia.
Qed.

Lemma load64_ext (m m' : memory) (p : Z) :
  (forall a, p <= a < p + 8 -> m' a = m a) -> load64 m' p = load64 m p.
Proof. intros H. apply load_le_ext. exact H. Qed.

Lemma linked_same_links (m m' : memory) (p q : Z) (l : list Z) :
  linked m p l q -> same_links m m' l -> linked m' p l q.
Proof.
  intros Hl. induction Hl as [p|p l q Hp Hl IH]; intros Hs.
  - constructor.
  - constructor; [exact Hp|].
    rewrite (load64_ext m m' p) by (intros a Ha; apply (Hs p); [left; reflexivity | exact Ha]).
    apply IH. intros x a Hx Ha. apply (Hs x); [right; exact Hx | exact Ha].
Qed.

Lemma linked_head (m : memory) (p q : Z) (l : list Z) :
  linked m p l q -> p = q \/ In p l.
Proof.
  intros H. inversion H; subst; [left; reflexivity | right; left; reflexivity].
Qed.

Lemma linked_app (m : memory) (p q r : Z) (l1 l2 : list Z) :
  linked m p l1 q -> linked m q l2 r -> linked m p (l1 ++ l2) r.
Proof.
  intros H1 H2. induction H1 as [p|p l q Hp Hl IH]; [exact H2|].
  cbn [app]. constructor; [exact Hp | apply IH; exact H2].
Qed.

Lemma same_links_memset (m m' : memory) (q c : Z) (l : list Z) :
  valid_frame q -> Forall valid_frame l -> ~ In q l ->
  same_links m m' l -> same_links m (memset m' q c PGSIZE) l.
Proof.
  intros Hq Hl Hnin Hs x a Hx Ha.
  assert (Hvx : valid_frame x) by (rewrite Forall_forall in Hl; apply Hl; exact Hx).
  assert (Hne : x <> q) by (intros ->; contradiction).
  pose proof (valid_frames_apart x q Hvx Hq Hne) as Hap.
  rewrite memset_outside by (unfold PGSIZE in *; lia).
  apply (Hs x); assumption.
Qed.

Lemma kallocs_follow (m : memory) (pa : Z) (qs : list Z) :
  layout_ok -> valid_frame pa ->
  forall refs h m',
    linked m h qs pa -> Forall valid_frame qs -> NoDup qs ->
    same_links m m' qs ->
    exists s', kallocs (S (length qs)) (mkState refs h m') = Done (qs ++ [pa]) s'.
Proof.
  intros Hok Hpa. induction qs as [|q qs IH]; intros refs h m' Hl Hv Hnd Hs.
  - inversion Hl; subst. cbn [length kallocs].
    rewrite kalloc_head
      by (cbn [freelist];
          first [apply valid_frame_nonzero; assumption
                | apply valid_frame_index; assumption]).
    cbn [bind freelist app]. eexists. reflexivity.
  - inversion Hl as [|p l q' Hq0 Hl']; subst.
    inversion Hv as [|x xs Hvq Hvqs]; subst.
    inversion Hnd as [|x xs Hnin Hnd']; subst.
    cbn [length]. change (kallocs (S (S (length qs))) ?s) with
      (call r, s1 <- kalloc s ;; call rs, s2 <- kallocs (S (length qs)) s1 ;; Done (r :: rs) s2).
    rewrite kalloc_head
      by (cbn [freelist]; first [exact Hq0 | apply valid_frame_index; assumption]).
    cbn [bind freelist phys memrefs].
    rewrite (load64_ext m m' q)
      by (intros a Ha; apply (Hs q); [left; reflexivity | exact Ha]).
    destruct (IH (upd refs (frame_index q) 1) (load64 m q) (memset m' q 5 PGSIZE))
      as [s' Hs']; try assumption.
    { apply same_links_memset; try assumption.
      intros x a Hx Ha. apply (Hs x); [right; exact Hx | exact Ha]. }
    rewrite Hs'. cbn [bind app]. eexists. reflexivity.
Qed.

(** C10: [kfree] on a managed frame whose counter is already 0 or below
    does not stop: it leaves the counter negative, fills the page with the
    byte 1 again and pushes the frame onto the head of the list.  When the
    frame was on the list already, reached from the head through the
    frames [qs], the list now runs through the frame twice, and the next
    [length qs + 2] calls of [kalloc] return it twice: first, and again
    after the frames [qs]. *)
Theorem kfree_double_free (pa : Z) (qs : list Z) (s : kstate) :
  layout_ok ->
  valid_frame pa ->
  INT_MIN < memrefs s (frame_index pa) <= 0 ->
  exists s1,
    kfree pa s = Done tt s1
    /\ memrefs s1 (frame_index pa) = memrefs s (frame_index pa) - 1
    /\ memrefs s1 (frame_index pa) < 0
    /\ freelist s1 = pa
    /\ phys s1 = store64 (memset (phys s) pa 1 PGSIZE) pa (freelist s)
    /\ (linked (phys s) (freelist s) qs pa ->
        Forall valid_frame qs -> NoDup qs -> ~ In pa qs ->
        linked (phys s1) (freelist s1) (pa :: qs ++ [pa]) (freelist s)
        /\ exists s2, kallocs (S (S (length qs))) s1 = Done (pa :: qs ++ [pa]) s2).
Proof.
  intros Hok Hpa Hc.
  rewrite kfree_valid by (try assumption; lia). cbv zeta.
  replace (memrefs s (frame_index pa) - 1 >? 0) with false by ztest.
  eexists. split; [reflexivity|]. cbn [memrefs freelist phys].
  rewrite upd_same.
  split; [reflexivity|]. split; [lia|]. split; [reflexivity|]. split; [reflexivity|].
  intros Hl Hv Hnd Hnin.
  set (m := phys s) in *. set (h := freelist s) in *.
  set (m1 := store64 (memset m pa 1 PGSIZE) pa h).
  assert (Hh : 0 <= h < 2 ^ 64).
  { apply valid_frame_uint64; [assumption|].
    destruct (linked_head m h pa qs Hl) as [->|Hin]; [assumption|].
    rewrite Forall_forall in Hv. apply Hv. exact Hin. }
  assert (Hlink : load64 m1 pa = h) by (apply load64_store64; exact Hh).
  assert (Hs1 : same_links m m1 qs).
  { intros x a Hx Ha.
    assert (Hvx : valid_frame x) by (rewrite Forall_forall in Hv; apply Hv; exact Hx).
    assert (Hne : x <> pa) by (intros ->; contradiction).
    pose proof (valid_frames_apart x pa Hvx Hpa Hne) as Hap.
    apply freed_page_content. unfold PGSIZE in *. lia. }
  pose proof (valid_frame_nonzero pa Hok Hpa) as Hpa0.
  split.
  - constructor; [exact Hpa0|]. rewrite Hlink.
    apply linked_app with (q := pa).
    + apply linked_same_links with (m := m); assumption.
    + constructor; [exact Hpa0|]. rewrite Hlink. constructor.
  - change (kallocs (S (S (length qs))) ?s) with
      (call r, s1 <- kalloc s ;; call rs, s2 <- kallocs (S (length qs)) s1 ;; Done (r :: rs) s2).
    rewrite kalloc_head
      by (cbn [freelist]; first [exact Hpa0 | apply valid_frame_index; assumption]).
    cbn [bind freelist phys memrefs]. fold m1. rewrite Hlink.
    destruct (kallocs_follow m pa qs Hok Hpa
                (upd (upd (memrefs s) (frame_index pa) (memrefs s (frame_index pa) - 1))
                     (frame_index pa) 1)
                h (memset m1 pa 5 PGSIZE)) as [s2 Hs2]; try assumption.
    { apply same_links_memset; assumption. }
    rewrite Hs2. cbn [bind]. eexists. reflexivity.
Qed.

End KallocFacts.

(** * The theorems at work on the sample states *)

Lemma xv6_valid_frame_f : valid_frame (L := xv6_layout) frame_f.
Proof. split; [reflexivity | cbn; unfold frame_f; lia]. Qed.

Lemma xv6_valid_frame_g : valid_frame (L := xv6_layout) frame_g.
Proof. split; [reflexivity | cbn; unfold frame_g; lia]. Qed.

Lemma xv6_valid_frame_h : valid_frame (L := xv6_layout) frame_h.
Proof. split; [reflexivity | cbn; unfold frame_h; lia]. Qed.

(** [kfree] on [frame_f]: with two references one is dropped and nothing
    else changes; with one reference the frame goes onto the free list,
    linked to [frame_g]. *)
Lemma kfree_spec_witness :
  (exists s',
     kfree (L := xv6_layout) frame_f (sample_state 2) = Done tt s'
     /\ memrefs s' 0x87fff = 1
     /\ memrefs s' 0x87ffe = -1
     /\ freelist s' = frame_g
     /\ phys s' frame_f = 7)
  /\ (exists s',
        kfree (L := xv6_layout) frame_f (sample_state 1) = Done tt s'
        /\ memrefs s' 0x87fff = 0
        /\ freelist s' = frame_f
        /\ load64 (phys s') frame_f = frame_g
        /\ phys s' (frame_f + 1) = 0xe0
        /\ phys s' (frame_f + 8) = 1
        /\ phys s' (frame_f + 4095) = 1
        /\ phys s' (frame_f + 4096) = 7).
Proof.
  pose proof (kfree_spec (L := xv6_layout) frame_f (sample_state 2) xv6_layout_ok)
    as (_ & Hkeep & _).
  pose proof (kfree_spec (L := xv6_layout) frame_f (sample_state 1) xv6_layout_ok)
    as (_ & _ & Hpush).
  split.
  - destruct (Hkeep xv6_valid_frame_f) as (s' & Hrun & Hc & Hoth & Hhead & Hmem);
      [reflexivity | reflexivity |].
    exists s'. split; [exact Hrun|]. split; [exact Hc|].
    split; [apply (Hoth 0x87ffe); discriminate|].
    split; [exact Hhead | apply (Hmem frame_f)].
  - destruct (Hpush xv6_valid_frame_f)
      as (s' & Hrun & Hc & _ & Hhead & Hbytes & Hlink & Hfill & Hout);
      [reflexivity | discriminate |].
    exists s'. split; [exact Hrun|]. split; [exact Hc|]. split; [exact Hhead|].
    split; [apply Hlink; split; [discriminate | reflexivity]|].
    split; [apply (Hbytes 1); split; [discriminate | reflexivity]|].
    split; [apply (Hfill (frame_f + 8)); split; [discriminate | reflexivity]|].
    split; [apply (Hfill (frame_f + 4095)); split; [discriminate | reflexivity]|].
    apply (Hout (frame_f + 4096)). right. discriminate.
Defined.

(** [incr_ref] refuses an address that is not page-aligned and counts a
    second reference on [frame_f]. *)
Lemma incr_ref_spec_witness :
  (exists s', incr_ref (L := xv6_layout) (frame_f + 1) (sample_state 1) = Done (-1) s')
  /\ (exists s', incr_ref (L := xv6_layout) frame_f (sample_state 1) = Done 1 s').
Proof.
  pose proof (incr_ref_spec (L := xv6_layout) (frame_f + 1) (sample_state 1) xv6_layout_ok)
    as (Hbad & _).
  pose proof (incr_ref_spec (L := xv6_layout) frame_f (sample_state 1) xv6_layout_ok)
    as (_ & _ & _ & Hgood).
  split.
  - apply Hbad. left. discriminate.
  - apply Hgood; [exact xv6_valid_frame_f | reflexivity].
Defined.

(** [kalloc] hands out the head [frame_g]; and after [frame_f] was freed,
    [frame_f], with the head back at [frame_g]. *)
Lemma kalloc_spec_witness :
  (exists s', kalloc (L := xv6_layout) (sample_state 2) = Done frame_g s')
  /\ (forall s1, kfree (L := xv6_layout) frame_f (sample_state 1) = Done tt s1 ->
      exists s2, kalloc (L := xv6_layout) s1 = Done frame_f s2 /\ freelist s2 = frame_g).
Proof.
  pose proof (kalloc_spec (L := xv6_layout) (sample_state 2) xv6_layout_ok)
    as (_ & Hhead & _).
  pose proof (kalloc_spec (L := xv6_layout) (sample_state 1) xv6_layout_ok)
    as (_ & _ & Hlifo).
  split.
  - apply Hhead; [discriminate | reflexivity].
  - intros s1 Hfree.
    apply (Hlifo frame_f s1 xv6_valid_frame_f Hfree); [discriminate|].
    split; [discriminate | reflexivity].
Defined.

(** Scenario A: the only owner of [frame_f] takes the write fault. *)
Lemma cowcopy_sole_owner_witness :
  exists pagetable',
    cowcopy (L := xv6_layout) true (sample_table pte_cow) 0x5123 (sample_state 1)
      = Done (frame_f, pagetable') (sample_state 1)
    /\ pagetable' 5 = Some pte_plain.
Proof.
  destruct (cowcopy_sole_owner (L := xv6_layout) true (sample_table pte_cow) 0x5123
              pte_cow (sample_state 1) xv6_cow_flag_ok eq_refl eq_refl eq_refl)
    as (pagetable' & Hrun & Hentry & _).
  exists pagetable'. split; [exact Hrun | exact Hentry].
Defined.

(** Scenario B: [frame_f] has two references; the fault moves the mapping
    to [frame_g], a copy, and leaves [frame_f] with one reference. *)
Lemma cowcopy_duplicates_witness :
  exists pagetable' s',
    cowcopy (L := xv6_layout) true (sample_table pte_cow) 0x5123 (sample_state 2)
      = Done (frame_g, pagetable') s'
    /\ (forall a, 0 <= a < PGSIZE -> phys s' (frame_g + a) = sample_memory (frame_f + a))
    /\ pagetable' 5 = Some (Z.lor (PA2PTE frame_g) 0x17)
    /\ memrefs s' 0x87fff = 1
    /\ memrefs s' 0x87ffe = 1
    /\ freelist s' = frame_h.
Proof.
  destruct (cowcopy_duplicates (L := xv6_layout) (sample_table pte_cow) 0x5123
              pte_cow (sample_state 2) xv6_layout_ok xv6_cow_flag_ok eq_refl
              xv6_valid_frame_f eq_refl xv6_valid_frame_g)
    as (pagetable' & s' & Hrun & Hcopy & _ & Hentry & _ & _ & _ & _ & _ & _ & Hf & Hg & _ & Hhead).
  { discriminate. }
  exists pagetable', s'.
  split; [exact Hrun|]. split; [exact Hcopy|]. split; [exact Hentry|].
  split; [exact Hf|]. split; [exact Hg|]. exact Hhead.
Defined.

(** The same fault when [mappages] fails: 0 is returned, [frame_g] is
    free again, and the entry of page 5 is left without its valid bit. *)
Lemma cowcopy_install_failure_witness :
  exists pagetable' s',
    cowcopy (L := xv6_layout) false (sample_table pte_cow) 0x5123 (sample_state 2)
      = Done (0, pagetable') s'
    /\ pagetable' 5 = Some pte_cow_invalid
    /\ Z.land pte_cow_invalid PTE_V = 0
    /\ freelist s' = frame_g
    /\ memrefs s' 0x87ffe = 0
    /\ memrefs s' 0x87fff = 2.
Proof.
  destruct (cowcopy_install_failure (L := xv6_layout) (sample_table pte_cow) 0x5123
              pte_cow (sample_state 2) xv6_layout_ok eq_refl
              xv6_valid_frame_f eq_refl xv6_valid_frame_g)
    as (pagetable' & s' & Hrun & Hentry & Hinv & _ & Hhead & Hg & Hf).
  { discriminate. }
  exists pagetable', s'.
  split; [exact Hrun|]. split; [exact Hentry|]. split; [exact Hinv|].
  split; [exact Hhead|]. split; [exact Hg | exact Hf].
Defined.

(** Scenario C: nothing to allocate. *)
Lemma exhaustion_spec_witness :
  kalloc (L := xv6_layout) (exhausted_state 2) = Done 0 (exhausted_state 2)
  /\ cowcopy (L := xv6_layout) true (sample_table pte_cow) 0x5123 (exhausted_state 2)
       = Done (0, sample_table pte_cow) (exhausted_state 2).
Proof.
  destruct (exhaustion_spec (L := xv6_layout) true (sample_table pte_cow) 0x5123
              pte_cow (exhausted_state 2) eq_refl) as (Hk & Hc).
  split; [exact Hk|]. apply Hc; reflexivity.
Defined.

(** An entry without the valid bit passes through the sole-owner branch. *)
Lemma cowcopy_unchecked_lookup_witness :
  cowcopy (L := xv6_layout) true (sample_table pte_cow_invalid) 0x9000 (sample_state 1)
    = Undefined
  /\ exists pagetable',
       cowcopy (L := xv6_layout) true (sample_table pte_cow_invalid) 0x5123 (sample_state 1)
         = Done (frame_f, pagetable') (sample_state 1)
       /\ pagetable' 5 = Some (Z.lor (PA2PTE frame_f) 0x16).
Proof.
  split.
  - apply (cowcopy_unchecked_lookup (L := xv6_layout) true (sample_table pte_cow_invalid)
             0x9000 (sample_state 1)). reflexivity.
  - apply (cowcopy_unchecked_lookup (L := xv6_layout) true (sample_table pte_cow_invalid)
             0x5123 (sample_state 1)) with (e := pte_cow_invalid); reflexivity.
Defined.

(** C2 as stated does not hold: on the entry of [frame_f] with the valid
    bit clear and one reference, [cowcopy] returns the frame address. *)
Lemma cowcopy_abort_counterexample :
  ~ (forall (L : MemLayout) (mapok : bool) (pagetable : pagetable_t) (va : Z) (s : kstate),
       (pagetable (vpn va) = None
        \/ exists e, pagetable (vpn va) = Some e /\ Z.land e PTE_V = 0) ->
       exists msg, cowcopy mapok pagetable va s = Panic msg).
Proof.
  intros Hclaim.
  destruct (Hclaim xv6_layout true (sample_table pte_cow_invalid) 0x5123 (sample_state 1))
    as [msg Hmsg].
  - right. exists pte_cow_invalid. split; reflexivity.
  - rewrite (cowcopy_in_place (L := xv6_layout) true (sample_table pte_cow_invalid) 0x5123
               pte_cow_invalid (sample_state 1) eq_refl eq_refl eq_refl) in Hmsg.
    discriminate.
Qed.

(** [iscow] on the sample table: the copy-on-write entry of page 5. *)
Lemma iscow_spec_witness :
  iscow (L := xv6_layout) (sample_table pte_cow) 0x5123 <> 0
  /\ iscow (L := xv6_layout) (sample_table pte_plain) 0x5123 = 0
  /\ iscow (L := xv6_layout) (sample_table pte_cow) 0x9000 = 0.
Proof.
  split; [|split].
  - apply (iscow_spec (L := xv6_layout) (sample_table pte_cow) 0x5123 xv6_cow_flag_ok).
    split; [discriminate|]. exists pte_cow. repeat split; discriminate.
  - apply (iscow_spec (L := xv6_layout) (sample_table pte_plain) 0x5123 xv6_cow_flag_ok)
      with (e := pte_plain); reflexivity.
  - apply (iscow_spec (L := xv6_layout) (sample_table pte_cow) 0x9000 xv6_cow_flag_ok).
    reflexivity.
Defined.

(** [frame_h], second on the free list, is freed once more: it is then
    handed out first and third. *)
Lemma kfree_double_free_witness :
  exists s1,
    kfree (L := xv6_layout) frame_h (sample_state 2) = Done tt s1
    /\ memrefs s1 0x87ffd = -2
    /\ exists s2, kallocs (L := xv6_layout) 3 s1 = Done [frame_h; frame_g; frame_h] s2.
Proof.
  destruct (kfree_double_free (L := xv6_layout) frame_h [frame_g] (sample_state 2)
              xv6_layout_ok xv6_valid_frame_h)
    as (s1 & Hrun & Hc & _ & _ & _ & Hlist).
  { split; [reflexivity | discriminate]. }
  exists s1. split; [exact Hrun|]. split; [exact Hc|].
  apply Hlist.
  - constructor; [discriminate|].
    replace (load64 (phys (sample_state 2)) frame_g) with frame_h by reflexivity.
    constructor.
  - constructor; [exact xv6_valid_frame_g | constructor].
  - constructor; [intros [] | constructor].
  - intros [H|[]]. discriminate.
Defined.

(** * Further properties of the allocator *)

Lemma tiny_layout_ok : layout_ok (L := tiny_layout).
Proof. unfold layout_ok, MEMREFS, PGSIZE; cbn. repeat split; try reflexivity; lia. Qed.

Section AllocatorFacts.
Context {L : MemLayout}.

(** ** What kfree leaves alone *)

(** X1: [kfree] writes one counter and one page: whenever it returns, every
    counter but that of [pa] and every byte outside the page at [pa] is as
    before, and the list head is either unchanged or [pa]. *)
Theorem kfree_frame (pa : Z) (s s' : kstate) :
  kfree pa s = Done tt s' ->
  (forall j, j <> frame_index pa -> memrefs s' j = memrefs s j)
  /\ (forall a, a < pa \/ pa + PGSIZE <= a -> phys s' a = phys s a)
  /\ (freelist s' = freelist s \/ freelist s' = pa)
  /\ memrefs s' (frame_index pa) = memrefs s (frame_index pa) - 1.
Proof.
  unfold kfree. destruct (bad_pa pa); [discriminate|]. cbv zeta.
  destruct (negb (in_table (frame_index pa))); [discriminate|].
  destruct (memrefs s (frame_index pa) <=? INT_MIN); [discriminate|].
  destruct (memrefs s (frame_index pa) - 1 >? 0);
    intros H; inversion H; subst; clear H; cbn [memrefs freelist phys].
  - split; [intros j Hj; apply upd_other; exact Hj|].
    split; [reflexivity|]. split; [left; reflexivity | apply upd_same].
  - split; [intros j Hj; apply upd_other; exact Hj|].
    split; [intros a Ha; apply freed_page_content; exact Ha|].
    split; [right; reflexivity | apply upd_same].
Qed.

(** ** Counting references *)

Lemma kfree_keeps (pa : Z) (s : kstate) :
  layout_ok -> valid_frame pa -> 1 < memrefs s (frame_index pa) ->
  kfree pa s =
    Done tt (mkState (upd (memrefs s) (frame_index pa) (memrefs s (frame_index pa) - 1))
               (freelist s) (phys s)).
Proof.
  intros Hok Hv Hc.
  rewrite kfree_valid by (try assumption; unfold INT_MIN; lia). cbv zeta.
  replace (memrefs s (frame_index pa) - 1 >? 0) with true by ztest.
  reflexivity.
Qed.

Lemma kfree_pushes (pa : Z) (s : kstate) :
  layout_ok -> valid_frame pa -> INT_MIN < memrefs s (frame_index pa) <= 1 ->
  kfree pa s =
    Done tt (mkState (upd (memrefs s) (frame_index pa) (memrefs s (frame_index pa) - 1))
               pa (store64 (memset (phys s) pa 1 PGSIZE) pa (freelist s))).
Proof.
  intros Hok Hv Hc.
  rewrite kfree_valid by (try assumption; lia). cbv zeta.
  replace (memrefs s (frame_index pa) - 1 >? 0) with false by ztest.
  reflexivity.
Qed.

Lemma counter_only_refl (s : kstate) (i : Z) : counter_only s s i (memrefs s i).
Proof. repeat split. Qed.

Lemma counter_only_step (s s1 s2 : kstate) (i v w : Z) :
  counter_only s s1 i v -> counter_only s1 s2 i w -> counter_only s s2 i w.
Proof.
  intros (_ & H1 & H2 & H3) (K0 & K1 & K2 & K3).
  split; [exact K0|]. split; [intros j Hj; rewrite K1, H1 by exact Hj; reflexivity|].
  split; congruence.
Qed.

Lemma times_incr_ref (pa : Z) (n : nat) :
  layout_ok -> valid_frame pa ->
  forall s, memrefs s (frame_index pa) + Z.of_nat n <= INT_MAX ->
  exists s', times n (incr_ref pa) s = Done tt s'
             /\ counter_only s s' (frame_index pa) (memrefs s (frame_index pa) + Z.of_nat n).
Proof.
  intros Hok Hv. induction n as [|n IH]; intros s Hc.
  - exists s. split; [reflexivity|]. rewrite Z.add_0_r. apply counter_only_refl.
  - cbn [times]. rewrite incr_ref_valid by (try assumption; lia). cbn [bind].
    match goal with |- context [times n _ ?s1] => destruct (IH s1) as (s' & Hrun & Hco) end.
    { cbn [memrefs]. rewrite upd_same. lia. }
    exists s'. split; [exact Hrun|].
    cbn [memrefs] in Hco. rewrite upd_same in Hco.
    replace (memrefs s (frame_index pa) + Z.of_nat (S n))
      with (memrefs s (frame_index pa) + 1 + Z.of_nat n) by lia.
    eapply counter_only_step; [|exact Hco].
    split; [apply upd_same|]. split; [intros j Hj; apply upd_other; exact Hj|].
    split; reflexivity.
Qed.

Lemma times_kfree_keeps (pa : Z) (n : nat) :
  layout_ok -> valid_frame pa ->
  forall s, Z.of_nat n < memrefs s (frame_index pa) ->
  exists s', times n (kfree pa) s = Done tt s'
             /\ counter_only s s' (frame_index pa) (memrefs s (frame_index pa) - Z.of_nat n).
Proof.
  intros Hok Hv. induction n as [|n IH]; intros s Hc.
  - exists s. split; [reflexivity|]. rewrite Z.sub_0_r. apply counter_only_refl.
  - cbn [times]. rewrite kfree_keeps by (try assumption; lia). cbn [bind].
    match goal with |- context [times n _ ?s1] => destruct (IH s1) as (s' & Hrun & Hco) end.
    { cbn [memrefs]. rewrite upd_same. lia. }
    exists s'. split; [exact Hrun|].
    cbn [memrefs] in Hco. rewrite upd_same in Hco.
    replace (memrefs s (frame_index pa) - Z.of_nat (S n))
      with (memrefs s (frame_index pa) - 1 - Z.of_nat n) by lia.
    eapply counter_only_step; [|exact Hco].
    split; [apply upd_same|]. split; [intros j Hj; apply upd_other; exact Hj|].
    split; reflexivity.
Qed.

(** X2: a reference taken with [incr_ref] is given back by one [kfree]: after
    [n] calls of [incr_ref] on a frame in use and then [n] calls of
    [kfree], every counter, the free list and the memory are what they
    were before; in between, the counter is [n] higher and nothing else
    differs. *)
Theorem incr_ref_kfree_balance (pa : Z) (n : nat) (s : kstate) :
  layout_ok -> valid_frame pa ->
  0 < memrefs s (frame_index pa) ->
  memrefs s (frame_index pa) + Z.of_nat n <= INT_MAX ->
  exists s1 s2,
    times n (incr_ref pa) s = Done tt s1
    /\ counter_only s s1 (frame_index pa) (memrefs s (frame_index pa) + Z.of_nat n)
    /\ times n (kfree pa) s1 = Done tt s2
    /\ (forall j, memrefs s2 j = memrefs s j)
    /\ freelist s2 = freelist s
    /\ phys s2 = phys s.
Proof.
  intros Hok Hv Hpos Hmax.
  destruct (times_incr_ref pa n Hok Hv s Hmax) as (s1 & Hrun1 & Hco1).
  pose proof Hco1 as (Hc1 & Ho1 & Hf1 & Hp1).
  destruct (times_kfree_keeps pa n Hok Hv s1) as (s2 & Hrun2 & Hc2 & Ho2 & Hf2 & Hp2);
    [lia|].
  exists s1, s2. repeat (split; [assumption|]).
  split; [|split; congruence].
  intros j. destruct (Z.eq_dec j (frame_index pa)) as [->|Hj].
  - rewrite Hc2, Hc1. lia.
  - rewrite Ho2, Ho1 by exact Hj. reflexivity.
Qed.

(** X3: a frame with [c >= 1] references goes back to the free list at the
    [c]-th call of [kfree] and not before: fewer calls only lower the
    counter; the [c]-th leaves the counter at 0, fills the page with the
    byte 1 and pushes it onto the head of the list. *)
Theorem kfree_last_reference (pa : Z) (c : nat) (s : kstate) :
  layout_ok -> valid_frame pa ->
  memrefs s (frame_index pa) = Z.of_nat (S c) ->
  (forall k, (k <= c)%nat ->
     exists s', times k (kfree pa) s = Done tt s'
                /\ counter_only s s' (frame_index pa) (Z.of_nat (S c) - Z.of_nat k))
  /\ exists s',
       times (S c) (kfree pa) s = Done tt s'
       /\ memrefs s' (frame_index pa) = 0
       /\ (forall j, j <> frame_index pa -> memrefs s' j = memrefs s j)
       /\ freelist s' = pa
       /\ phys s' = store64 (memset (phys s) pa 1 PGSIZE) pa (freelist s).
Proof.
  intros Hok Hv Hc.
  assert (Hkeep : forall k, (k <= c)%nat ->
     exists s', times k (kfree pa) s = Done tt s'
                /\ counter_only s s' (frame_index pa) (Z.of_nat (S c) - Z.of_nat k)).
  { intros k Hk. rewrite <- Hc. apply times_kfree_keeps; try assumption. lia. }
  split; [exact Hkeep|].
  destruct (Hkeep c (le_n c)) as (s1 & Hrun & Hc1 & Ho1 & Hf1 & Hp1).
  assert (Hlast : forall k s0 (f : kstate -> outcome unit),
             times k f s0 = Done tt s1 ->
             times (S k) f s0 = f s1).
  { induction k as [|k IH]; intros s0 f H.
    - cbn [times] in *. inversion H; subst. destruct (f s1) as [[] s2|m|]; reflexivity.
    - cbn [times] in H. change (times (S (S k)) f s0)
        with (call _r, s2 <- f s0 ;; times (S k) f s2).
      destruct (f s0) as [u s2|m|]; cbn [bind] in *; try discriminate.
      apply IH. exact H. }
  rewrite (Hlast c s (kfree pa) Hrun).
  rewrite kfree_pushes by (try assumption; rewrite Hc1; unfold INT_MIN; lia).
  eexists. split; [reflexivity|]. cbn [memrefs freelist phys].
  split; [rewrite upd_same, Hc1; lia|].
  split; [intros j Hj; rewrite upd_other by exact Hj; apply Ho1; exact Hj|].
  split; [reflexivity|]. rewrite Hp1, Hf1. reflexivity.
Qed.

(** ** The free list as a whole *)

Lemma linked_unique (m : memory) (p : Z) (l : list Z) :
  linked m p l 0 -> forall l', linked m p l' 0 -> l = l'.
Proof.
  intros H. remember 0 as q eqn:Eq. induction H as [p|p l q Hp Hl IH]; subst.
  - intros l' H'. inversion H' as [|p' k q' Hp' Hk]; subst; [reflexivity|].
    elim Hp'. reflexivity.
  - intros l' H'. inversion H' as [|p' k q' Hp' Hk]; subst; [elim Hp; reflexivity|].
    f_equal. apply IH; [reflexivity | exact Hk].
Qed.

Lemma linked_split (m : memory) (p q x : Z) (l : list Z) :
  linked m p l q -> In x l ->
  exists l1 l2, l = l1 ++ x :: l2 /\ linked m (load64 m x) l2 q.
Proof.
  intros H. induction H as [p|p l q Hp Hl IH]; intros Hin; [destruct Hin|].
  destruct Hin as [->|Hin].
  - exists [], l. split; [reflexivity | exact Hl].
  - destruct (IH Hin) as (l1 & l2 & -> & Hl2).
    exists (p :: l1), l2. split; [reflexivity | exact Hl2].
Qed.

(** A list that ends in the null pointer holds no page twice. *)
Lemma linked_NoDup (m : memory) (p : Z) (l : list Z) : linked m p l 0 -> NoDup l.
Proof.
  intros H. remember 0 as q eqn:Eq. induction H as [p|p l q Hp Hl IH]; subst.
  - constructor.
  - constructor; [|apply IH; reflexivity].
    intros Hin. destruct (linked_split m _ 0 p l Hl Hin) as (l1 & l2 & E & Hl2).
    pose proof (linked_unique m _ l Hl l2 Hl2) as E2.
    rewrite E2 in E at 1. apply (f_equal (@length Z)) in E.
    rewrite length_app in E. cbn [length] in E. lia.
Qed.

Lemma same_links_refl (m : memory) (l : list Z) : same_links m m l.
Proof. intros x a _ _. reflexivity. Qed.

(** The calls of [kalloc] walk down the list: what they need of the
    memory is the links of the pages still on it. *)
Lemma kallocs_walk (m : memory) (q : Z) (l : list Z) :
  layout_ok ->
  forall refs h m',
    linked m h l q -> Forall valid_frame l -> NoDup l -> same_links m m' l ->
    exists s',
      kallocs (length l) (mkState refs h m') = Done l s'
      /\ freelist s' = q
      /\ (forall x, In x l -> memrefs s' (frame_index x) = 1)
      /\ (forall j, (forall x, In x l -> j <> frame_index x) -> memrefs s' j = refs j)
      /\ (forall a, (forall x, In x l -> a < x \/ x + PGSIZE <= a) -> phys s' a = m' a).
Proof.
  intros Hok. induction l as [|x l IH]; intros refs h m' Hl Hv Hnd Hs.
  - inversion Hl; subst. exists (mkState refs q m').
    split; [reflexivity|]. split; [reflexivity|].
    split; [intros x []|]. split; intros; reflexivity.
  - inversion Hl as [|p l0 q' Hx0 Hl']; subst.
    inversion Hv as [|y ys Hvx Hvl]; subst.
    inversion Hnd as [|y ys Hnin Hnd']; subst.
    cbn [length]. change (kallocs (S (length l)) ?s) with
      (call r, s1 <- kalloc s ;; call rs, s2 <- kallocs (length l) s1 ;; Done (r :: rs) s2).
    rewrite kalloc_head
      by (cbn [freelist]; first [exact Hx0 | apply valid_frame_index; assumption]).
    cbn [bind freelist phys memrefs].
    rewrite (load64_ext m m' x)
      by (intros a Ha; apply (Hs x); [left; reflexivity | exact Ha]).
    destruct (IH (upd refs (frame_index x) 1) (load64 m x) (memset m' x 5 PGSIZE))
      as (s' & Hrun & Hq & Hone & Hrest & Hmem); try assumption.
    { apply same_links_memset; try assumption.
      intros y a Hy Ha. apply (Hs y); [right; exact Hy | exact Ha]. }
    rewrite Hrun. cbn [bind]. exists s'. split; [reflexivity|]. split; [exact Hq|].
    split; [|split].
    + intros y [<-|Hy]; [|apply Hone; exact Hy].
      rewrite Hrest; [apply upd_same|].
      intros z Hz E. apply Hnin.
      assert (Hvz : valid_frame z) by (rewrite Forall_forall in Hvl; apply Hvl; exact Hz).
      destruct (Z.eq_dec x z) as [->|Hne]; [exact Hz|].
      exfalso. exact (frame_index_inj x z Hok Hvx Hvz Hne E).
    + intros j Hj. rewrite Hrest by (intros z Hz; apply Hj; right; exact Hz).
      apply upd_other. apply Hj. left. reflexivity.
    + intros a Ha. rewrite Hmem by (intros z Hz; apply Ha; right; exact Hz).
      apply memset_outside. apply Ha. left. reflexivity.
Qed.

(** X4: [kalloc] hands out the frames of the free list in list order, each
    once; their counters become 1 and no other counter changes; when the
    list has been used up, [kalloc] returns 0. *)
Theorem kallocs_exhaust (l : list Z) (s : kstate) :
  layout_ok ->
  linked (phys s) (freelist s) l 0 -> Forall valid_frame l ->
  exists s',
    kallocs (length l) s = Done l s'
    /\ NoDup l
    /\ (forall x, In x l -> memrefs s' (frame_index x) = 1)
    /\ (forall j, (forall x, In x l -> j <> frame_index x) -> memrefs s' j = memrefs s j)
    /\ kalloc s' = Done 0 s'.
Proof.
  intros Hok Hl Hv.
  pose proof (linked_NoDup _ _ _ Hl) as Hnd.
  destruct (kallocs_walk (phys s) 0 l Hok (memrefs s) (freelist s) (phys s))
    as (s' & Hrun & Hq & Hone & Hrest & _); try assumption.
  { apply same_links_refl. }
  exists s'. destruct s as [refs h m]. cbn [memrefs freelist phys] in *.
  split; [exact Hrun|]. split; [exact Hnd|]. split; [exact Hone|]. split; [exact Hrest|].
  apply kalloc_empty. exact Hq.
Qed.

Lemma linked_push (m : memory) (h q pa : Z) (l : list Z) :
  layout_ok ->
  linked m h l q -> Forall valid_frame l -> ~ In pa l -> valid_frame pa ->
  0 <= h < 2 ^ 64 ->
  linked (store64 (memset m pa 1 PGSIZE) pa h) pa (pa :: l) q.
Proof.
  intros Hok Hl Hv Hnin Hpa Hh.
  constructor; [apply valid_frame_nonzero; assumption|].
  rewrite load64_store64 by exact Hh.
  apply linked_same_links with (m := m); [exact Hl|].
  intros x a Hx Ha.
  assert (Hvx : valid_frame x) by (rewrite Forall_forall in Hv; apply Hv; exact Hx).
  assert (Hne : x <> pa) by (intros ->; contradiction).
  pose proof (valid_frames_apart x pa Hvx Hpa Hne) as Hap.
  apply freed_page_content. unfold PGSIZE in *. lia.
Qed.

(** X5: allocating a frame and freeing it at once puts the free list back:
    the same head and the same frames behind it.  The counter of the frame
    is then 0, whatever it was before the allocation. *)
Theorem kalloc_kfree_roundtrip (r q : Z) (l : list Z) (s : kstate) :
  layout_ok ->
  linked (phys s) (freelist s) (r :: l) q -> Forall valid_frame (r :: l) ->
  NoDup (r :: l) -> 0 <= q < 2 ^ 64 ->
  exists s1 s2,
    kalloc s = Done r s1
    /\ kfree r s1 = Done tt s2
    /\ freelist s2 = freelist s
    /\ linked (phys s2) (freelist s2) (r :: l) q
    /\ memrefs s2 (frame_index r) = 0
    /\ (forall j, j <> frame_index r -> memrefs s2 j = memrefs s j).
Proof.
  intros Hok Hl Hv Hnd Hq.
  inversion Hl as [|p l0 q' Hr0 Hl']; subst.
  inversion Hv as [|y ys Hvr Hvl]; subst.
  inversion Hnd as [|y ys Hnin Hnd']; subst.
  assert (Hnext : 0 <= load64 (phys s) (freelist s) < 2 ^ 64).
  { destruct (linked_head _ _ _ _ Hl') as [->|Hin]; [exact Hq|].
    apply valid_frame_uint64; [assumption|].
    rewrite Forall_forall in Hvl. apply Hvl. exact Hin. }
  rewrite kalloc_head by (first [exact Hr0 | apply valid_frame_index; assumption]).
  do 2 eexists. split; [reflexivity|].
  rewrite kfree_pushes
    by (try assumption; cbn [memrefs]; rewrite upd_same; unfold INT_MIN; lia).
  cbn [memrefs freelist phys].
  split; [reflexivity|]. cbn [memrefs freelist phys]. split; [reflexivity|].
  split.
  - apply linked_push; try assumption.
    apply linked_same_links with (m := phys s); [exact Hl'|].
    apply same_links_memset; try assumption. apply same_links_refl.
  - split; [rewrite !upd_same; reflexivity|].
    intros j Hj. rewrite !upd_other by exact Hj. reflexivity.
Qed.

(** ** freerange and kinit *)

Lemma PGROUNDUP_eq (sz : Z) :
  0 <= sz -> sz + PGSIZE - 1 < 2 ^ 64 ->
  PGROUNDUP sz = PGSIZE * ((sz + PGSIZE - 1) / PGSIZE).
Proof.
  intros H0 H1. unfold PGROUNDUP. rewrite Z.mod_small by (unfold PGSIZE in *; lia).
  apply PGROUNDDOWN_eq.
Qed.

Lemma PGROUNDUP_bounds (sz : Z) :
  0 <= sz -> sz + PGSIZE - 1 < 2 ^ 64 ->
  PGROUNDUP sz mod PGSIZE = 0 /\ sz <= PGROUNDUP sz < sz + PGSIZE.
Proof.
  intros H0 H1. rewrite PGROUNDUP_eq by assumption. unfold PGSIZE in *.
  pose proof (Z.div_mod (sz + 4096 - 1) 4096).
  pose proof (Z.mod_pos_bound (sz + 4096 - 1) 4096).
  split; [|lia].
  rewrite Z.mul_comm. apply Z.mod_mul. lia.
Qed.

(** Whatever the argument, [PGROUNDUP] gives a page boundary of the 64-bit
    address space. *)
Lemma PGROUNDUP_range (sz : Z) :
  PGROUNDUP sz mod PGSIZE = 0 /\ 0 <= PGROUNDUP sz <= 2 ^ 64 - PGSIZE.
Proof.
  unfold PGROUNDUP.
  pose proof (PGROUNDDOWN_eq ((sz + PGSIZE - 1) mod 2 ^ 64)) as E.
  unfold PGROUNDDOWN in E. rewrite E.
  pose proof (Z.mod_pos_bound (sz + PGSIZE - 1) (2 ^ 64) ltac:(lia)) as Hb.
  set (x := (sz + PGSIZE - 1) mod 2 ^ 64) in *. unfold PGSIZE in *.
  pose proof (Z.div_mod x 4096). pose proof (Z.mod_pos_bound x 4096).
  split; [rewrite Z.mul_comm; apply Z.mod_mul; lia | lia].
Qed.

(** The managed memory ends well below the top of the address space. *)
Lemma PHYSTOP_bound : layout_ok -> PHYSTOP + 2 * PGSIZE < 2 ^ 64.
Proof.
  intros (_ & _ & Hmax). unfold MEMREFS, PGSIZE in *.
  pose proof (Z.div_mod PHYSTOP 4096). pose proof (Z.mod_pos_bound PHYSTOP 4096). lia.
Qed.

(** No wrap below [PHYSTOP]. *)
Lemma next_page (p : Z) :
  layout_ok -> 0 <= p <= PHYSTOP + PGSIZE -> (p + PGSIZE) mod 2 ^ 64 = p + PGSIZE.
Proof.
  intros Hok Hp. pose proof (PHYSTOP_bound Hok). apply Z.mod_small.
  unfold PGSIZE in *. lia.
Qed.

(** The fuel [freerange] starts its loop with is enough: the loop ends by
    its test, or [kfree] stops it at the first page at or above
    [PHYSTOP]. *)
Lemma freerange_loop_fuel (pa_end : Z) (fuel : nat) :
  layout_ok ->
  forall p s, p mod PGSIZE = 0 -> 0 <= p <= 2 ^ 64 - PGSIZE ->
              (Z.to_nat ((pa_end - p) / PGSIZE) < fuel)%nat ->
              freerange_loop fuel p pa_end s <> None.
Proof.
  intros Hok. pose proof (PHYSTOP_bound Hok) as Htop.
  induction fuel as [|fuel IH]; intros p s Hal Hp Hf; [lia|].
  cbn [freerange_loop].
  destruct (Z.leb_spec ((p + PGSIZE) mod 2 ^ 64) pa_end) as [Hle|Hgt];
    [|discriminate].
  destruct (Z.lt_ge_cases p PHYSTOP) as [Hin|Hout].
  - assert (E : (p + PGSIZE) mod 2 ^ 64 = p + PGSIZE)
      by (apply next_page; [assumption | unfold PGSIZE; lia]).
    rewrite E in Hle. rewrite E.
    destruct (kfree p s) as [u s'|msg|]; try discriminate.
    apply IH; unfold PGSIZE in *.
    + rewrite Z.add_mod, Hal by lia. reflexivity.
    + lia.
    + replace (pa_end - (p + 4096)) with (pa_end - p + (-1) * 4096) by lia.
      rewrite Z.div_add by lia.
      assert (1 <= (pa_end - p) / 4096) by (apply Z.div_le_lower_bound; lia).
      lia.
  - unfold kfree. replace (bad_pa p) with true; [discriminate|].
    symmetry. apply bad_pa_true_iff. right. right. exact Hout.
Qed.

Lemma freerange_fuel (pa_start pa_end : Z) (s : kstate) :
  layout_ok -> freerange pa_start pa_end s <> None.
Proof.
  intros Hok. unfold freerange.
  destruct (PGROUNDUP_range pa_start) as (Hal & Hp).
  apply freerange_loop_fuel; [assumption | assumption | assumption | lia].
Qed.

(** The loop of [kinit] over the frame table: it ends when the table has
    at most [INT_MAX] entries, and overflows its counter otherwise. *)
Lemma initlocks_run (s : kstate) (fuel : nat) :
  MEMREFS <= INT_MAX ->
  forall i, 0 <= i -> (Z.to_nat (MEMREFS - i) < fuel)%nat ->
            initlocks fuel i s = Some (Done tt s).
Proof.
  intros Hmax. induction fuel as [|fuel IH]; intros i Hi Hf; [lia|].
  cbn [initlocks]. destruct (Z.ltb_spec i MEMREFS) as [Hlt|Hge]; [|reflexivity].
  replace (INT_MAX <=? i) with false by ztest.
  apply IH; lia.
Qed.

Lemma initlocks_overflow (s : kstate) (fuel : nat) :
  INT_MAX < MEMREFS ->
  forall i, 0 <= i <= INT_MAX -> (Z.to_nat (INT_MAX - i) < fuel)%nat ->
            initlocks fuel i s = Some Undefined.
Proof.
  intros Hmax. induction fuel as [|fuel IH]; intros i Hi Hf; [lia|].
  cbn [initlocks]. replace (i <? MEMREFS) with true by ztest.
  destruct (Z.leb_spec INT_MAX i) as [Hle|Hlt]; [reflexivity|].
  apply IH; lia.
Qed.

(** With at most [INT_MAX] frames, [kinit] is [freerange(end, PHYSTOP)]. *)
Lemma kinit_freerange (s : kstate) :
  MEMREFS <= INT_MAX -> kinit s = freerange end_ PHYSTOP s.
Proof.
  intros Hmax. unfold kinit.
  rewrite initlocks_run by (try assumption; lia). reflexivity.
Qed.

(** With more, the [int] counter of its first loop overflows. *)
Lemma kinit_overflow (s : kstate) :
  INT_MAX < MEMREFS -> kinit s = Some Undefined.
Proof.
  intros Hmax. unfold kinit.
  rewrite initlocks_overflow by (unfold INT_MAX in *; lia). reflexivity.
Qed.

Lemma frames_In (p : Z) (n : nat) (q : Z) :
  In q (frames p n) <->
  p <= q < p + Z.of_nat n * PGSIZE /\ (q - p) mod PGSIZE = 0.
Proof.
  revert p. induction n as [|n IH]; intros p; cbn [frames In].
  - split; [intros [] | lia].
  - rewrite IH. unfold PGSIZE. split.
    + intros [<-|[H1 H2]].
      * rewrite Z.sub_diag. split; [lia | reflexivity].
      * split; [lia|].
        replace (q - p) with (q - (p + 4096) + 1 * 4096) by lia.
        rewrite Z.mod_add by lia. exact H2.
    + intros [H1 H2]. destruct (Z.eq_dec p q) as [E|E]; [left; exact E | right].
      pose proof (Z.div_mod (q - p) 4096).
      split; [lia|].
      replace (q - (p + 4096)) with (q - p + (-1) * 4096) by lia.
      rewrite Z.mod_add by lia. exact H2.
Qed.

Lemma frames_NoDup (p : Z) (n : nat) : NoDup (frames p n).
Proof.
  revert p. induction n as [|n IH]; intros p; cbn [frames]; constructor; [|apply IH].
  rewrite frames_In. unfold PGSIZE. lia.
Qed.

Lemma frames_valid (p : Z) (n : nat) (q : Z) :
  p mod PGSIZE = 0 -> end_ <= p -> p + Z.of_nat n * PGSIZE <= PHYSTOP ->
  In q (frames p n) -> valid_frame q.
Proof.
  intros Hal Hlo Hhi Hin. apply frames_In in Hin. destruct Hin as [H1 H2].
  unfold valid_frame, PGSIZE in *. split; [|lia].
  replace q with (q - p + p) by lia.
  rewrite Z.add_mod, H2, Hal by lia. reflexivity.
Qed.

(** The loop of [freerange] over [n] whole pages, in front of a list [l0]
    of frames below them. *)
Lemma freerange_loop_pushes (pa_end : Z) (q0 : Z) (n : nat) :
  layout_ok -> pa_end <= PHYSTOP ->
  forall p s fuel l0,
    p mod PGSIZE = 0 -> end_ <= p ->
    p + Z.of_nat n * PGSIZE <= pa_end < p + Z.of_nat n * PGSIZE + PGSIZE ->
    (n < fuel)%nat ->
    (forall q, In q (frames p n) -> INT_MIN < memrefs s (frame_index q) <= 1) ->
    0 <= freelist s < 2 ^ 64 ->
    linked (phys s) (freelist s) l0 q0 -> Forall valid_frame l0 ->
    (forall x, In x l0 -> x < p) ->
    exists s',
      freerange_loop fuel p pa_end s = Some (Done tt s')
      /\ linked (phys s') (freelist s') (rev (frames p n) ++ l0) q0
      /\ (forall q, In q (frames p n) ->
            memrefs s' (frame_index q) = memrefs s (frame_index q) - 1)
      /\ (forall j, (forall q, In q (frames p n) -> j <> frame_index q) ->
            memrefs s' j = memrefs s j)
      /\ (forall a, a < p \/ p + Z.of_nat n * PGSIZE <= a -> phys s' a = phys s a).
Proof.
  intros Hok Hend. induction n as [|n IH];
    intros p s fuel l0 Hal Hlo Hrange Hfuel Hcnt Hhead Hl Hv Hbelow.
  - destruct fuel as [|fuel]; [lia|]. cbn [freerange_loop frames rev app].
    rewrite next_page by (try assumption; destruct Hok; unfold PGSIZE in *; lia).
    replace (p + PGSIZE <=? pa_end) with false by (unfold PGSIZE in *; ztest).
    exists s. split; [reflexivity|]. split; [exact Hl|].
    split; [intros q []|]. split; intros; reflexivity.
  - destruct fuel as [|fuel]; [lia|]. cbn [freerange_loop].
    rewrite !next_page by (try assumption; destruct Hok; unfold PGSIZE in *; lia).
    replace (p + PGSIZE <=? pa_end) with true by (unfold PGSIZE in *; ztest).
    assert (Hvp : valid_frame p) by (unfold valid_frame, PGSIZE in *; split; lia).
    assert (Hlater : forall q, In q (frames (p + PGSIZE) n) ->
                               valid_frame q /\ p < q /\ frame_index q <> frame_index p).
    { intros q Hq.
      assert (Hvq : valid_frame q).
      { apply (frames_valid (p + PGSIZE) n); try assumption; unfold PGSIZE in *;
          [rewrite Z.add_mod, Hal by lia; reflexivity | lia | lia]. }
      apply frames_In in Hq. unfold PGSIZE in Hq.
      split; [exact Hvq|]. split; [lia|].
      apply frame_index_inj; try assumption. lia. }
    rewrite kfree_pushes
      by (try assumption; apply Hcnt; left; reflexivity).
    set (s1 := mkState _ _ _).
    destruct (IH (p + PGSIZE) s1 fuel (p :: l0)) as (s' & Hrun & Hlist & Hdec & Hoth & Hmem).
    + unfold PGSIZE in *. rewrite Z.add_mod, Hal by lia. reflexivity.
    + unfold PGSIZE. lia.
    + unfold PGSIZE in *. lia.
    + lia.
    + intros q Hq. destruct (Hlater q Hq) as (_ & _ & Hne).
      unfold s1. cbn [memrefs]. rewrite upd_other by exact Hne.
      apply Hcnt. right. exact Hq.
    + unfold s1. cbn [freelist]. apply valid_frame_uint64; assumption.
    + unfold s1. cbn [freelist phys]. apply linked_push; try assumption.
      intros Hin. apply Hbelow in Hin. lia.
    + constructor; assumption.
    + intros x [<-|Hx]; [unfold PGSIZE; lia|]. apply Hbelow in Hx. unfold PGSIZE. lia.
    + exists s'. split; [exact Hrun|].
      split.
      { cbn [frames rev]. rewrite <- app_assoc. exact Hlist. }
      split.
      { intros q [<-|Hq].
        - rewrite Hoth by (intros x Hx; apply not_eq_sym; apply Hlater; exact Hx).
          unfold s1. cbn [memrefs]. apply upd_same.
        - rewrite Hdec by exact Hq. destruct (Hlater q Hq) as (_ & _ & Hne).
          unfold s1. cbn [memrefs]. rewrite upd_other by exact Hne. reflexivity. }
      split.
      { intros j Hj. rewrite Hoth by (intros x Hx; apply Hj; right; exact Hx).
        unfold s1. cbn [memrefs]. apply upd_other. apply Hj. left. reflexivity. }
      intros a Ha. rewrite Hmem by (unfold PGSIZE in *; lia).
      unfold s1. cbn [phys]. apply freed_page_content. unfold PGSIZE in *. lia.
Qed.

(** The pages of [freerange] are the whole pages inside the range. *)
Lemma freed_pages_In (pa_start pa_end q : Z) :
  0 <= pa_start -> pa_start + PGSIZE - 1 < 2 ^ 64 ->
  In q (freed_pages pa_start pa_end) <->
  q mod PGSIZE = 0 /\ pa_start <= q /\ q + PGSIZE <= pa_end.
Proof.
  intros H0 H1. unfold freed_pages. rewrite frames_In.
  destruct (PGROUNDUP_bounds pa_start H0 H1) as (Hal & Hlo & Hhi).
  set (p := PGROUNDUP pa_start) in *. unfold PGSIZE in *.
  pose proof (Z.div_mod p 4096). pose proof (Z.div_mod q 4096).
  pose proof (Z.div_mod (q - p) 4096).
  pose proof (Z.div_mod (pa_end - p) 4096).
  pose proof (Z.mod_pos_bound (pa_end - p) 4096).
  destruct (Z.lt_ge_cases pa_end p) as [Hneg|Hpos].
  - assert ((pa_end - p) / 4096 < 0) by (apply Z.div_lt_upper_bound; lia).
    replace (Z.to_nat ((pa_end - p) / 4096)) with 0%nat by lia. lia.
  - assert (0 <= (pa_end - p) / 4096) by (apply Z.div_pos; lia).
    rewrite Z2Nat.id by lia. split.
    + intros [Hq Hm]. split; [|lia].
      replace q with (q - p + p) by lia.
      rewrite Z.add_mod, Hm, Hal by lia. reflexivity.
    + intros (Hm & Hq1 & Hq2).
      assert (Hm' : (q - p) mod 4096 = 0).
      { rewrite Zminus_mod, Hm, Hal by lia. reflexivity. }
      split; [|exact Hm']. lia.
Qed.

(** [freerange] over a range inside the managed memory, in a state where
    the list holds frames below the range. *)
Lemma freerange_run (pa_start pa_end q0 : Z) (l0 : list Z) (s : kstate) :
  layout_ok -> end_ <= pa_start <= PHYSTOP -> pa_end <= PHYSTOP ->
  (forall q, In q (freed_pages pa_start pa_end) ->
             INT_MIN < memrefs s (frame_index q) <= 1) ->
  0 <= freelist s < 2 ^ 64 ->
  linked (phys s) (freelist s) l0 q0 -> Forall valid_frame l0 ->
  (forall x, In x l0 -> x < pa_start) ->
  exists s',
    freerange pa_start pa_end s = Some (Done tt s')
    /\ linked (phys s') (freelist s') (rev (freed_pages pa_start pa_end) ++ l0) q0
    /\ (forall q, In q (freed_pages pa_start pa_end) ->
          memrefs s' (frame_index q) = memrefs s (frame_index q) - 1)
    /\ (forall j, (forall q, In q (freed_pages pa_start pa_end) -> j <> frame_index q) ->
          memrefs s' j = memrefs s j)
    /\ (forall a, a < pa_start \/ pa_end <= a -> phys s' a = phys s a).
Proof.
  intros Hok Hstart Hend Hcnt Hhead Hl Hv Hbelow.
  pose proof Hok as (Hend0 & HPal & HPmax).
  assert (H0 : 0 <= pa_start) by lia.
  assert (H1 : pa_start + PGSIZE - 1 < 2 ^ 64).
  { unfold MEMREFS, PGSIZE in *. pose proof (Z.div_mod PHYSTOP 4096). lia. }
  destruct (PGROUNDUP_bounds pa_start H0 H1) as (Hal & Hlo & Hhi).
  unfold freerange, freed_pages in *.
  set (p := PGROUNDUP pa_start) in *.
  destruct (Z.lt_ge_cases pa_end p) as [Hneg|Hpos].
  - assert ((pa_end - p) / PGSIZE < 0)
      by (apply Z.div_lt_upper_bound; unfold PGSIZE; lia).
    replace (Z.to_nat ((pa_end - p) / PGSIZE)) with 0%nat by lia.
    cbn [freerange_loop frames rev app].
    rewrite next_page by (try assumption; unfold PGSIZE in *; lia).
    replace (p + PGSIZE <=? pa_end) with false by (unfold PGSIZE; ztest).
    exists s. split; [reflexivity|]. split; [exact Hl|].
    split; [intros q []|]. split; intros; reflexivity.
  - pose proof (Z.div_mod (pa_end - p) PGSIZE).
    pose proof (Z.mod_pos_bound (pa_end - p) PGSIZE).
    assert (0 <= (pa_end - p) / PGSIZE) by (apply Z.div_pos; unfold PGSIZE; lia).
    set (n := Z.to_nat ((pa_end - p) / PGSIZE)) in *.
    assert (Hn : Z.of_nat n = (pa_end - p) / PGSIZE) by (unfold n; apply Z2Nat.id; lia).
    destruct (freerange_loop_pushes pa_end q0 n Hok Hend p s (S n) l0)
      as (s' & Hrun & Hlist & Hdec & Hoth & Hmem); try assumption.
    + lia.
    + rewrite Hn. unfold PGSIZE in *. lia.
    + lia.
    + intros x Hx. apply Hbelow in Hx. lia.
    + exists s'. repeat (split; [assumption|]).
      intros a Ha. apply Hmem. rewrite Hn. unfold PGSIZE in *. lia.
Qed.

(** X6: [freerange] over a range inside the managed memory, when the
    counter of every whole page of the range is at most 1 (and above
    [INT_MIN]), as it is at boot, and the free list holds frames below the
    range.  Each whole page of the range, and nothing else, is then pushed
    onto the free list, the highest address ending up at the head, in front
    of the frames the list held; its counter is lowered by one; no other
    counter and no byte outside the range changes.  (A page with a higher
    counter would only have it lowered, and would not be pushed.) *)
Theorem freerange_spec (pa_start pa_end q0 : Z) (l0 : list Z) (s : kstate) :
  layout_ok -> end_ <= pa_start <= PHYSTOP -> pa_end <= PHYSTOP ->
  (forall q, In q (freed_pages pa_start pa_end) ->
             INT_MIN < memrefs s (frame_index q) <= 1) ->
  0 <= freelist s < 2 ^ 64 ->
  linked (phys s) (freelist s) l0 q0 -> Forall valid_frame l0 ->
  (forall x, In x l0 -> x < pa_start) ->
  exists s',
    freerange pa_start pa_end s = Some (Done tt s')
    /\ (forall q, In q (freed_pages pa_start pa_end) <->
                  q mod PGSIZE = 0 /\ pa_start <= q /\ q + PGSIZE <= pa_end)
    /\ linked (phys s') (freelist s') (rev (freed_pages pa_start pa_end) ++ l0) q0
    /\ (forall q, In q (freed_pages pa_start pa_end) ->
          memrefs s' (frame_index q) = memrefs s (frame_index q) - 1)
    /\ (forall j, (forall q, In q (freed_pages pa_start pa_end) -> j <> frame_index q) ->
          memrefs s' j = memrefs s j)
    /\ (forall a, a < pa_start \/ pa_end <= a -> phys s' a = phys s a).
Proof.
  intros Hok Hstart Hend Hcnt Hhead Hl Hv Hbelow.
  destruct (freerange_run pa_start pa_end q0 l0 s) as (s' & Hrun & Hrest); try assumption.
  exists s'. split; [exact Hrun|]. split; [|exact Hrest].
  destruct Hok as (Hend0 & Hal & Hmax).
  intros q. apply freed_pages_In; [lia|].
  unfold MEMREFS, PGSIZE in *.
  pose proof (Z.div_mod PHYSTOP 4096). lia.
Qed.

(** The pages [kinit] frees are the managed frames. *)
Lemma kinit_pages (q : Z) :
  layout_ok -> end_ <= PHYSTOP ->
  In q (freed_pages end_ PHYSTOP) <-> valid_frame q.
Proof.
  intros (Hend0 & HPal & HPmax) Hle.
  rewrite freed_pages_In
    by (unfold MEMREFS, PGSIZE in *; pose proof (Z.div_mod PHYSTOP 4096); lia).
  unfold valid_frame, PGSIZE in *.
  pose proof (Z.div_mod PHYSTOP 4096). pose proof (Z.div_mod q 4096).
  split; intros (Hm & H1); (split; [exact Hm | lia]).
Qed.

Lemma kinit_boot (m : memory) :
  layout_ok -> end_ <= PHYSTOP -> MEMREFS <= INT_MAX ->
  exists s',
    kinit (boot_state m) = Some (Done tt s')
    /\ linked (phys s') (freelist s') (rev (freed_pages end_ PHYSTOP)) 0
    /\ (forall q, valid_frame q -> memrefs s' (frame_index q) = -1)
    /\ (forall j, (forall q, valid_frame q -> j <> frame_index q) -> memrefs s' j = 0)
    /\ (forall a, a < end_ \/ PHYSTOP <= a -> phys s' a = m a).
Proof.
  intros Hok Hle Hint. rewrite kinit_freerange by exact Hint.
  destruct (freerange_run end_ PHYSTOP 0 [] (boot_state m))
    as (s' & Hrun & Hlist & Hdec & Hoth & Hmem); try assumption.
  - lia.
  - lia.
  - intros q _. cbn. unfold INT_MIN. lia.
  - cbn. lia.
  - constructor.
  - constructor.
  - intros x [].
  - exists s'. split; [exact Hrun|]. rewrite app_nil_r in Hlist.
    split; [exact Hlist|].
    split; [intros q Hq; rewrite Hdec by (apply kinit_pages; assumption); reflexivity|].
    split; [|exact Hmem].
    intros j Hj. rewrite Hoth; [reflexivity|].
    intros q Hq. apply Hj. apply kinit_pages; assumption.
Qed.

(** X7: when the frame table has at most [INT_MAX] entries, so that the
    [int] counter of the first loop does not overflow, [kinit], started
    with the zeroed globals, returns, and the free list then holds every
    managed frame, each once and nothing else, the highest address at the
    head; every managed frame has the counter -1 (not 0: [kfree]
    decrements the zero it finds); the other counters are 0 and no byte
    outside [[end, PHYSTOP)] has changed.  The free list is well formed. *)
Theorem kinit_spec (m : memory) :
  layout_ok -> end_ <= PHYSTOP -> MEMREFS <= INT_MAX ->
  exists s',
    kinit (boot_state m) = Some (Done tt s')
    /\ linked (phys s') (freelist s') (rev (freed_pages end_ PHYSTOP)) 0
    /\ NoDup (rev (freed_pages end_ PHYSTOP))
    /\ (forall q, In q (rev (freed_pages end_ PHYSTOP)) <-> valid_frame q)
    /\ (forall q, valid_frame q -> memrefs s' (frame_index q) = -1)
    /\ (forall j, (forall q, valid_frame q -> j <> frame_index q) -> memrefs s' j = 0)
    /\ (forall a, a < end_ \/ PHYSTOP <= a -> phys s' a = m a)
    /\ free_list_inv s' (rev (freed_pages end_ PHYSTOP)).
Proof.
  intros Hok Hle Hint.
  destruct (kinit_boot m Hok Hle Hint) as (s' & Hrun & Hlist & Hone & Hzero & Hmem).
  assert (Hin : forall q, In q (rev (freed_pages end_ PHYSTOP)) <-> valid_frame q)
    by (intros q; rewrite <- in_rev; apply kinit_pages; assumption).
  exists s'. split; [exact Hrun|]. split; [exact Hlist|].
  split; [apply NoDup_rev, frames_NoDup|].
  split; [exact Hin|]. split; [exact Hone|]. split; [exact Hzero|].
  split; [exact Hmem|].
  split; [exact Hlist|]. split.
  - apply Forall_forall. intros q Hq. apply Hin. exact Hq.
  - intros q Hq. rewrite Hone by (apply Hin; exact Hq). lia.
Qed.

(** X8: when the frame table has at most [INT_MAX] entries, [kinit]
    returns, and the allocator then hands out every managed frame exactly
    once, from the highest address down, and after that returns 0. *)
Theorem kinit_then_kallocs (m : memory) :
  layout_ok -> end_ <= PHYSTOP -> MEMREFS <= INT_MAX ->
  exists s1 s2,
    kinit (boot_state m) = Some (Done tt s1)
    /\ kallocs (length (freed_pages end_ PHYSTOP)) s1
         = Done (rev (freed_pages end_ PHYSTOP)) s2
    /\ (forall q, valid_frame q ->
          In q (rev (freed_pages end_ PHYSTOP)) /\ memrefs s2 (frame_index q) = 1)
    /\ NoDup (rev (freed_pages end_ PHYSTOP))
    /\ kalloc s2 = Done 0 s2.
Proof.
  intros Hok Hle Hint.
  destruct (kinit_boot m Hok Hle Hint) as (s1 & Hrun & Hlist & _).
  assert (Hv : Forall valid_frame (rev (freed_pages end_ PHYSTOP))).
  { apply Forall_forall. intros q Hq. apply in_rev in Hq.
    apply kinit_pages; assumption. }
  assert (Hnd : NoDup (rev (freed_pages end_ PHYSTOP)))
    by (apply NoDup_rev, frames_NoDup).
  destruct s1 as [refs h mem]. cbn [phys freelist] in Hlist.
  destruct (kallocs_walk mem 0 _ Hok refs h mem Hlist Hv Hnd (same_links_refl _ _))
    as (s2 & Hallocs & Hq & Hone & _ & _).
  rewrite length_rev in Hallocs.
  exists (mkState refs h mem), s2. split; [exact Hrun|]. split; [exact Hallocs|].
  split.
  - intros q Hq'. assert (Hin : In q (rev (freed_pages end_ PHYSTOP)))
      by (rewrite <- in_rev; apply kinit_pages; assumption).
    split; [exact Hin | apply Hone; exact Hin].
  - split; [exact Hnd | apply kalloc_empty; exact Hq].
Qed.

(** ** More on cowcopy *)

(** X9: [cowcopy] reads its address only through the page it lies in. *)
Theorem cowcopy_page_offset (mapok : bool) (pagetable : pagetable_t) (va va' : Z) (s : kstate) :
  vpn va = vpn va' ->
  cowcopy mapok pagetable va s = cowcopy mapok pagetable va' s.
Proof.
  intros H. unfold cowcopy.
  replace (PGROUNDDOWN va') with (PGROUNDDOWN va)
    by (rewrite !PGROUNDDOWN_eq; unfold vpn in H; rewrite H; reflexivity).
  reflexivity.
Qed.

(** The duplicating branch when the allocation and [mappages] succeed:
    the table and the state it ends in. *)
Lemma cowcopy_copy_run (pagetable : pagetable_t) (va e : Z) (s : kstate) :
  layout_ok ->
  pagetable (vpn va) = Some e ->
  valid_frame (PTE2PA e) ->
  1 < memrefs s (frame_index (PTE2PA e)) ->
  valid_frame (freelist s) ->
  freelist s <> PTE2PA e ->
  cowcopy true pagetable va s =
    Done (freelist s,
          store_pte (store_pte pagetable (vpn va) (Z.land e (Z.lnot PTE_V)))
            (vpn va) (remapped e (freelist s)))
      (mkState
         (upd (upd (memrefs s) (frame_index (freelist s)) 1)
            (frame_index (PTE2PA e)) (memrefs s (frame_index (PTE2PA e)) - 1))
         (load64 (phys s) (freelist s))
         (memmove (memset (phys s) (freelist s) 5 PGSIZE) (freelist s) (PTE2PA e) PGSIZE)).
Proof.
  intros Hok He Hf Hc Hg Hne.
  set (f := PTE2PA e) in *. set (g := freelist s) in *.
  destruct (valid_frame_index f Hok Hf) as [_ Hinf].
  destruct (valid_frame_index g Hok Hg) as [_ Hing].
  pose proof (valid_frame_nonzero g Hok Hg) as Hg0.
  pose proof (frame_index_inj f g Hok Hf Hg (not_eq_sym Hne)) as Hidx.
  rewrite (cowcopy_shared true pagetable va e s He Hinf) by (fold f; lia).
  rewrite kalloc_head by assumption. fold g f. cbn [bind].
  apply Z.eqb_neq in Hg0. rewrite Hg0. cbv zeta. cbn [memrefs freelist phys].
  rewrite mappages_one_page.
  rewrite PGROUNDDOWN_aligned by (destruct Hf; assumption).
  rewrite kfree_keeps
    by (try assumption; cbn [memrefs]; rewrite upd_other by exact Hidx; lia).
  cbn [bind memrefs freelist phys].
  rewrite (upd_other _ _ _ _ Hidx). reflexivity.
Qed.

(** X10: scenario B to its end.  Two pages of one table map frame [f], which
    has two references.  The write fault on the first page moves it to a
    copy in the frame at the head of the free list; the write fault on the
    second page then finds [f] with one reference, returns [f] and changes
    nothing in the allocator: no second copy is made. *)
Theorem cowcopy_second_fault (mapok : bool) (pagetable : pagetable_t)
    (va1 va2 e1 e2 : Z) (s : kstate) :
  layout_ok ->
  vpn va1 <> vpn va2 ->
  pagetable (vpn va1) = Some e1 -> pagetable (vpn va2) = Some e2 ->
  PTE2PA e1 = PTE2PA e2 ->
  valid_frame (PTE2PA e1) ->
  memrefs s (frame_index (PTE2PA e1)) = 2 ->
  valid_frame (freelist s) -> freelist s <> PTE2PA e1 ->
  exists pagetable1 s1 pagetable2,
    cowcopy true pagetable va1 s = Done (freelist s, pagetable1) s1
    /\ cowcopy mapok pagetable1 va2 s1 = Done (PTE2PA e2, pagetable2) s1
    /\ memrefs s1 (frame_index (PTE2PA e1)) = 1
    /\ pagetable2 (vpn va1) = Some (remapped e1 (freelist s))
    /\ pagetable2 (vpn va2) = Some (grant_write e2).
Proof.
  intros Hok Hpages He1 He2 Hsame Hf Hc Hg Hne.
  destruct (valid_frame_index _ Hok Hf) as [_ Hinf].
  do 3 eexists. split.
  - apply (cowcopy_copy_run pagetable va1 e1 s); try assumption. rewrite Hc. lia.
  - split.
    + apply cowcopy_in_place.
      * rewrite !store_pte_other by (apply not_eq_sym; exact Hpages). exact He2.
      * rewrite <- Hsame. exact Hinf.
      * cbn [memrefs]. rewrite <- Hsame, upd_same, Hc. reflexivity.
    + cbn [memrefs]. rewrite upd_same, Hc.
      split; [reflexivity|]. split.
      * rewrite !store_pte_other by exact Hpages. apply store_pte_same.
      * apply store_pte_same.
Qed.

(** X11: whatever branch it takes, [cowcopy] writes no slot of the page table
    but the one of the faulting page. *)
Theorem cowcopy_one_slot (mapok : bool) (pagetable pagetable' : pagetable_t)
    (va v : Z) (s s' : kstate) :
  cowcopy mapok pagetable va s = Done (v, pagetable') s' ->
  forall k, k <> vpn va -> pagetable' k = pagetable k.
Proof.
  intros Hrun k Hk.
  destruct (pagetable (vpn va)) as [e|] eqn:He.
  2:{ unfold cowcopy in Hrun. rewrite walk_absent in Hrun by exact He. discriminate. }
  destruct (in_table (frame_index (PTE2PA e))) eqn:Hin.
  2:{ unfold cowcopy in Hrun. destruct (walk_found pagetable va e He) as [Hw Hl].
      rewrite Hw in Hrun. cbv zeta in Hrun. rewrite Hl, Hin in Hrun. discriminate. }
  destruct (Z.eq_dec (memrefs s (frame_index (PTE2PA e))) 1) as [Hc|Hc].
  - rewrite (cowcopy_in_place mapok pagetable va e s He Hin Hc) in Hrun.
    inversion Hrun; subst. rewrite !store_pte_other by exact Hk. reflexivity.
  - rewrite (cowcopy_shared mapok pagetable va e s He Hin Hc) in Hrun.
    destruct (kalloc s) as [mem s1|msg|]; cbn [bind] in Hrun; try discriminate.
    destruct (mem =? 0); [inversion Hrun; subst; reflexivity|].
    cbv zeta in Hrun. destruct mapok.
    + rewrite mappages_one_page in Hrun.
      match type of Hrun with
      | context [kfree ?a ?b] => destruct (kfree a b) as [u s2|msg|]
      end; cbn [bind] in Hrun; try discriminate.
      inversion Hrun; subst. rewrite !store_pte_other by exact Hk. reflexivity.
    + cbn [mappages] in Hrun.
      match type of Hrun with
      | context [kfree ?a ?b] => destruct (kfree a b) as [u s2|msg|]
      end; cbn [bind] in Hrun; try discriminate.
      inversion Hrun; subst. rewrite !store_pte_other by exact Hk. reflexivity.
Qed.

Lemma iscow_flag_clear (pagetable : pagetable_t) (va e : Z) :
  pagetable (vpn va) = Some e -> Z.land e PTE_COW = 0 -> iscow pagetable va = 0.
Proof.
  intros He Hc. destruct (Z.lt_ge_cases MAXVA va) as [Hlt|Hge].
  - unfold iscow. replace (va >? MAXVA) with true by ztest. reflexivity.
  - rewrite (iscow_found pagetable va e Hge He), Hc.
    destruct (Z.land e PTE_V =? 0); reflexivity.
Qed.

(** X12: a call of [cowcopy] that returns a non-zero address has resolved the
    fault: the entry of the faulting page names the returned frame, with
    [PTE_W] set and [PTE_COW] clear, and [iscow] on the address is now 0.
    The free list is assumed to be empty or to start with a managed
    frame. *)
Theorem cowcopy_resolves (mapok : bool) (pagetable pagetable' : pagetable_t)
    (va v : Z) (s s' : kstate) :
  layout_ok -> cow_flag_ok ->
  freelist s = 0 \/ valid_frame (freelist s) ->
  cowcopy mapok pagetable va s = Done (v, pagetable') s' ->
  v <> 0 ->
  (exists e', pagetable' (vpn va) = Some e'
              /\ PTE2PA e' = v
              /\ Z.land e' PTE_W = PTE_W
              /\ Z.land e' PTE_COW = 0)
  /\ iscow pagetable' va = 0.
Proof.
  intros Hok Hcow Hhead Hrun Hv.
  assert (Hentry : exists e', pagetable' (vpn va) = Some e'
              /\ PTE2PA e' = v
              /\ Z.land e' PTE_W = PTE_W
              /\ Z.land e' PTE_COW = 0).
  { destruct (pagetable (vpn va)) as [e|] eqn:He.
    2:{ unfold cowcopy in Hrun. rewrite walk_absent in Hrun by exact He. discriminate. }
    destruct (in_table (frame_index (PTE2PA e))) eqn:Hin.
    2:{ unfold cowcopy in Hrun. destruct (walk_found pagetable va e He) as [Hw Hl].
        rewrite Hw in Hrun. cbv zeta in Hrun. rewrite Hl, Hin in Hrun. discriminate. }
    destruct (Z.eq_dec (memrefs s (frame_index (PTE2PA e))) 1) as [Hc|Hc].
    - rewrite (cowcopy_in_place mapok pagetable va e s He Hin Hc) in Hrun.
      inversion Hrun; subst. exists (grant_write e).
      split; [apply store_pte_same|].
      destruct (grant_write_spec e Hcow) as (G1 & G2 & G3 & _).
      split; [exact G3|]. split; assumption.
    - rewrite (cowcopy_shared mapok pagetable va e s He Hin Hc) in Hrun.
      destruct Hhead as [Hempty|Hg].
      + rewrite kalloc_empty in Hrun by exact Hempty. cbn [bind] in Hrun.
        inversion Hrun; subst. contradiction.
      + destruct (valid_frame_index _ Hok Hg) as [_ Hing].
        pose proof (valid_frame_nonzero _ Hok Hg) as Hg0.
        rewrite kalloc_head in Hrun by assumption. cbn [bind] in Hrun.
        apply Z.eqb_neq in Hg0. rewrite Hg0 in Hrun. cbv zeta in Hrun.
        destruct mapok.
        * rewrite mappages_one_page in Hrun.
          match type of Hrun with
          | context [kfree ?a ?b] => destruct (kfree a b) as [u s2|msg|]
          end; cbn [bind] in Hrun; try discriminate.
          inversion Hrun; subst. exists (remapped e (freelist s)).
          split; [apply store_pte_same|].
          destruct (remapped_spec e (freelist s) Hcow) as (R1 & _ & R3 & R4 & _);
            [destruct Hg; assumption | apply valid_frame_uint64; assumption |].
          split; [exact R1|]. split; assumption.
        * cbn [mappages] in Hrun.
          match type of Hrun with
          | context [kfree ?a ?b] => destruct (kfree a b) as [u s2|msg|]
          end; cbn [bind] in Hrun; try discriminate.
          inversion Hrun; subst. contradiction. }
  split; [exact Hentry|].
  destruct Hentry as (e' & He' & _ & _ & Hclear).
  apply (iscow_flag_clear pagetable' va e' He' Hclear).
Qed.

(** ** The free list stays well formed *)

Lemma free_list_not_in_use (s : kstate) (l : list Z) (pa : Z) :
  free_list_inv s l -> 1 <= memrefs s (frame_index pa) -> ~ In pa l.
Proof.
  intros (_ & _ & Hfree) Hc Hin. apply Hfree in Hin. lia.
Qed.

Lemma free_list_counter_write (s : kstate) (l : list Z) (pa v : Z) :
  layout_ok -> free_list_inv s l -> valid_frame pa -> ~ In pa l ->
  free_list_inv (mkState (upd (memrefs s) (frame_index pa) v) (freelist s) (phys s)) l.
Proof.
  intros Hok (Hl & Hv & Hfree) Hpa Hnin. split; [exact Hl|]. split; [exact Hv|].
  intros x Hx. cbn [memrefs].
  assert (Hvx : valid_frame x) by (rewrite Forall_forall in Hv; apply Hv; exact Hx).
  rewrite upd_other; [apply Hfree; exact Hx|].
  apply frame_index_inj; try assumption. intros ->. contradiction.
Qed.

Lemma free_list_page_write (s : kstate) (l : list Z) (pa : Z) (m' : memory) :
  free_list_inv s l -> valid_frame pa -> ~ In pa l ->
  (forall a, a < pa \/ pa + PGSIZE <= a -> m' a = phys s a) ->
  free_list_inv (mkState (memrefs s) (freelist s) m') l.
Proof.
  intros (Hl & Hv & Hfree) Hpa Hnin Hout. split; [|split; assumption].
  cbn [phys freelist]. apply linked_same_links with (m := phys s); [exact Hl|].
  intros x a Hx Ha.
  assert (Hvx : valid_frame x) by (rewrite Forall_forall in Hv; apply Hv; exact Hx).
  assert (Hne : x <> pa) by (intros ->; contradiction).
  pose proof (valid_frames_apart x pa Hvx Hpa Hne) as Hap.
  apply Hout. unfold PGSIZE in *. lia.
Qed.

Lemma free_list_head_uint64 (s : kstate) (l : list Z) :
  layout_ok -> free_list_inv s l -> 0 <= freelist s < 2 ^ 64.
Proof.
  intros Hok (Hl & Hv & _).
  destruct (linked_head _ _ _ _ Hl) as [->|Hin]; [lia|].
  apply valid_frame_uint64; [assumption|].
  rewrite Forall_forall in Hv. apply Hv. exact Hin.
Qed.

Lemma kalloc_pops (s : kstate) (r : Z) (l : list Z) :
  layout_ok -> free_list_inv s (r :: l) ->
  kalloc s =
    Done r (mkState (upd (memrefs s) (frame_index r) 1)
              (load64 (phys s) r) (memset (phys s) r 5 PGSIZE))
  /\ free_list_inv
       (mkState (upd (memrefs s) (frame_index r) 1)
          (load64 (phys s) r) (memset (phys s) r 5 PGSIZE)) l
  /\ valid_frame r /\ ~ In r l /\ freelist s = r.
Proof.
  intros Hok (Hl & Hv & Hfree).
  pose proof (linked_NoDup _ _ _ Hl) as Hnd.
  inversion Hl as [|p l0 q' Hr0 Hl' E1 E2]; subst.
  inversion Hv as [|y ys Hvr Hvl]; subst.
  inversion Hnd as [|y ys Hnin Hnd']; subst.
  split.
  { rewrite kalloc_head by (first [exact Hr0 | apply valid_frame_index; assumption]).
    reflexivity. }
  split; [|split; [exact Hvr|]; split; [exact Hnin | reflexivity]].
  split; [|split; [exact Hvl|]]; cbn [memrefs freelist phys].
  - apply linked_same_links with (m := phys s); [exact Hl'|].
    apply same_links_memset; try assumption. apply same_links_refl.
  - intros x Hx.
    assert (Hvx : valid_frame x) by (rewrite Forall_forall in Hvl; apply Hvl; exact Hx).
    rewrite upd_other; [apply Hfree; right; exact Hx|].
    apply frame_index_inj; try assumption. intros ->. contradiction.
Qed.

Lemma kfree_last_inv (s : kstate) (l : list Z) (pa : Z) :
  layout_ok -> free_list_inv s l -> valid_frame pa -> ~ In pa l ->
  memrefs s (frame_index pa) = 1 ->
  exists s', kfree pa s = Done tt s' /\ free_list_inv s' (pa :: l).
Proof.
  intros Hok Hinv Hpa Hnin Hc. pose proof Hinv as (Hl & Hv & Hfree).
  rewrite kfree_pushes by (try assumption; rewrite Hc; unfold INT_MIN; lia).
  eexists. split; [reflexivity|].
  split; [|split]; cbn [memrefs freelist phys].
  - apply linked_push; try assumption. apply (free_list_head_uint64 s l); assumption.
  - constructor; assumption.
  - intros x [<-|Hx]; [rewrite upd_same; lia|].
    assert (Hvx : valid_frame x) by (rewrite Forall_forall in Hv; apply Hv; exact Hx).
    rewrite upd_other; [apply Hfree; exact Hx|].
    apply frame_index_inj; try assumption. intros ->. contradiction.
Qed.

(** X13: the allocator keeps its free list well formed.  From a state whose
    free list is a null-terminated list of managed frames with counters at
    most 0: [kalloc] takes the first frame off and leaves the rest such a
    list; [kfree] and [incr_ref] on a frame in use (counter at least 1)
    leave the list as it is, except that [kfree] of the last reference
    puts that frame in front. *)
Theorem free_list_invariant (s : kstate) (l : list Z) :
  layout_ok -> free_list_inv s l ->
  (forall r l', l = r :: l' ->
     exists s', kalloc s = Done r s'
                /\ free_list_inv s' l' /\ memrefs s' (frame_index r) = 1)
  /\ (l = [] -> kalloc s = Done 0 s)
  /\ (forall pa, valid_frame pa -> 1 < memrefs s (frame_index pa) ->
        exists s', kfree pa s = Done tt s' /\ free_list_inv s' l)
  /\ (forall pa, valid_frame pa -> memrefs s (frame_index pa) = 1 ->
        exists s', kfree pa s = Done tt s' /\ free_list_inv s' (pa :: l))
  /\ (forall pa, valid_frame pa -> 1 <= memrefs s (frame_index pa) < INT_MAX ->
        exists s', incr_ref pa s = Done 1 s' /\ free_list_inv s' l).
Proof.
  intros Hok Hinv. pose proof Hinv as (Hl & Hv & Hfree).
  split; [|split; [|split; [|split]]].
  - intros r l' ->. destruct (kalloc_pops s r l' Hok Hinv) as (Hrun & Hinv' & _).
    eexists. split; [exact Hrun|]. split; [exact Hinv'|]. cbn [memrefs]. apply upd_same.
  - intros ->. apply kalloc_empty.
    destruct (linked_head _ _ _ _ Hl) as [E|[]]. exact E.
  - intros pa Hpa Hc. rewrite kfree_keeps by assumption.
    eexists. split; [reflexivity|].
    apply free_list_counter_write; try assumption.
    apply (free_list_not_in_use s); [exact Hinv | lia].
  - intros pa Hpa Hc. apply kfree_last_inv; try assumption.
    apply (free_list_not_in_use s); [exact Hinv | lia].
  - intros pa Hpa Hc. rewrite incr_ref_valid by (try assumption; lia).
    eexists. split; [reflexivity|].
    apply free_list_counter_write; try assumption.
    apply (free_list_not_in_use s); [exact Hinv | lia].
Qed.

(** X14: on a well-formed free list and a mapping of a frame in use, [cowcopy]
    always returns, and the free list is well formed afterwards: it is the
    list it was, or, when the returned frame was taken from it, the list
    without its first frame. *)
Theorem cowcopy_keeps_free_list (mapok : bool) (pagetable : pagetable_t)
    (va e : Z) (s : kstate) (l : list Z) :
  layout_ok -> free_list_inv s l ->
  pagetable (vpn va) = Some e ->
  valid_frame (PTE2PA e) ->
  1 <= memrefs s (frame_index (PTE2PA e)) ->
  exists v pagetable' s',
    cowcopy mapok pagetable va s = Done (v, pagetable') s'
    /\ (free_list_inv s' l \/ exists l', l = v :: l' /\ free_list_inv s' l').
Proof.
  intros Hok Hinv He Hf Hc.
  destruct (valid_frame_index _ Hok Hf) as [_ Hinf].
  pose proof (free_list_not_in_use s l _ Hinv Hc) as Hfnin.
  destruct (Z.eq_dec (memrefs s (frame_index (PTE2PA e))) 1) as [Hone|Hmany].
  { rewrite (cowcopy_in_place mapok pagetable va e s He Hinf Hone).
    do 3 eexists. split; [reflexivity | left; exact Hinv]. }
  rewrite (cowcopy_shared mapok pagetable va e s He Hinf Hmany).
  destruct l as [|g l'].
  { rewrite kalloc_empty
      by (destruct Hinv as (Hl & _); destruct (linked_head _ _ _ _ Hl) as [E|[]]; exact E).
    cbn [bind]. do 3 eexists. split; [reflexivity | left; exact Hinv]. }
  destruct (kalloc_pops s g l' Hok Hinv) as (Hrun & Hinv1 & Hg & Hgnin & Hhead).
  rewrite Hrun. cbn [bind].
  replace (g =? 0) with false
    by (pose proof (valid_frame_nonzero g Hok Hg); ztest).
  cbv zeta. cbn [memrefs freelist phys].
  assert (Hgf : g <> PTE2PA e) by (intros ->; apply Hfnin; left; reflexivity).
  pose proof (frame_index_inj _ _ Hok Hf Hg (not_eq_sym Hgf)) as Hidx.
  set (s1 := mkState (upd (memrefs s) (frame_index g) 1) (load64 (phys s) g)
               (memset (phys s) g 5 PGSIZE)) in *.
  assert (Hinv2 : free_list_inv
            (mkState (memrefs s1) (freelist s1)
               (memmove (phys s1) g (PTE2PA e) PGSIZE)) l').
  { apply (free_list_page_write s1 l' g); try assumption.
    intros a Ha. apply memmove_outside. exact Ha. }
  unfold s1 in Hinv2. cbn [memrefs freelist phys] in Hinv2.
  destruct mapok.
  - rewrite mappages_one_page.
    rewrite PGROUNDDOWN_aligned by (destruct Hf; assumption).
    rewrite kfree_keeps
      by (try assumption; cbn [memrefs]; rewrite upd_other by exact Hidx; lia).
    cbn [bind memrefs freelist phys].
    do 3 eexists. split; [reflexivity|]. right. exists l'. split; [reflexivity|].
    match goal with
    | |- free_list_inv (mkState (upd ?r ?i ?v) ?h ?m) _ =>
        apply (free_list_counter_write (mkState r h m) l' (PTE2PA e) v)
    end; try assumption.
    intros Hin. apply Hfnin. right. exact Hin.
  - cbn [mappages].
    match goal with
    | |- context [kfree g ?s2] =>
        destruct (kfree_last_inv s2 l' g Hok Hinv2 Hg Hgnin) as (s3 & Hfree & Hinv3)
    end.
    { cbn [memrefs]. apply upd_same. }
    rewrite Hfree. cbn [bind].
    do 3 eexists. split; [reflexivity | left; exact Hinv3].
Qed.

(** ** Edges of freerange and of a double free *)

(** X15: the edges of [freerange], whose addresses are 64-bit.  When the
    first page boundary at or above [pa_start] is not the last page of the
    address space and no whole page fits between it and [pa_end], nothing
    is freed and the state is unchanged.  When the loop test holds for the
    first page and that page lies outside [[end, PHYSTOP)], the call stops
    in the [panic] of [kfree].  This is what happens for a start in the
    last page but one of the address space: the sum of the loop test wraps
    to 0, the body runs whatever [pa_end] is, and [kfree] refuses the
    page. *)
Theorem freerange_edges (pa_start pa_end : Z) (s : kstate) :
  (PGROUNDUP pa_start + PGSIZE < 2 ^ 64 ->
   pa_end < PGROUNDUP pa_start + PGSIZE ->
     freerange pa_start pa_end s = Some (Done tt s))
  /\ ((PGROUNDUP pa_start + PGSIZE) mod 2 ^ 64 <= pa_end ->
      PGROUNDUP pa_start < end_ \/ PHYSTOP <= PGROUNDUP pa_start ->
      freerange pa_start pa_end s = Some (Panic "kfree"))
  /\ (layout_ok ->
      2 ^ 64 - 2 * PGSIZE < pa_start <= 2 ^ 64 - PGSIZE -> 0 <= pa_end ->
      freerange pa_start pa_end s = Some (Panic "kfree")).
Proof.
  assert (Hpanic : (PGROUNDUP pa_start + PGSIZE) mod 2 ^ 64 <= pa_end ->
                   PGROUNDUP pa_start < end_ \/ PHYSTOP <= PGROUNDUP pa_start ->
                   freerange pa_start pa_end s = Some (Panic "kfree")).
  { intros H Hout. unfold freerange. cbn [freerange_loop].
    replace ((PGROUNDUP pa_start + PGSIZE) mod 2 ^ 64 <=? pa_end) with true by ztest.
    unfold kfree.
    replace (bad_pa (PGROUNDUP pa_start)) with true; [reflexivity|].
    symmetry. apply bad_pa_true_iff. right. exact Hout. }
  split; [|split; [exact Hpanic|]].
  - intros Htop H. unfold freerange. cbn [freerange_loop].
    destruct (PGROUNDUP_range pa_start) as (_ & Hp).
    rewrite Z.mod_small by (unfold PGSIZE in *; lia).
    replace (PGROUNDUP pa_start + PGSIZE <=? pa_end) with false by ztest.
    reflexivity.
  - intros Hok Hstart Hend. pose proof (PHYSTOP_bound Hok) as Hphys.
    assert (E : PGROUNDUP pa_start = 2 ^ 64 - PGSIZE).
    { rewrite PGROUNDUP_eq by (unfold PGSIZE in *; lia). unfold PGSIZE in *.
      pose proof (Z.div_mod (pa_start + 4096 - 1) 4096).
      pose proof (Z.mod_pos_bound (pa_start + 4096 - 1) 4096).
      assert ((pa_start + 4096 - 1) / 4096 = 2 ^ 52 - 1); lia. }
    apply Hpanic; rewrite E.
    + replace (2 ^ 64 - PGSIZE + PGSIZE) with (2 ^ 64) by lia.
      rewrite Z.mod_same by lia. exact Hend.
    + right. unfold PGSIZE in *. lia.
Qed.

Lemma load64_memset (m : memory) (p c : Z) :
  load64 (memset m p c PGSIZE) p =
    (c mod 256) * (1 + 2 ^ 8 + 2 ^ 16 + 2 ^ 24 + 2 ^ 32 + 2 ^ 40 + 2 ^ 48 + 2 ^ 56).
Proof.
  unfold load64. cbn [load_le].
  rewrite !memset_inside by (unfold PGSIZE; lia). lia.
Qed.

Lemma kallocs_snoc (n : nat) :
  forall s l s', kallocs n s = Done l s' ->
    kallocs (S n) s = call r, s'' <- kalloc s' ;; Done (l ++ [r]) s''.
Proof.
  induction n as [|n IH]; intros s l s' H.
  - cbn [kallocs] in H. inversion H; subst. cbn [kallocs].
    destruct (kalloc s') as [r s''|msg|]; reflexivity.
  - change (kallocs (S (S n)) s)
      with (call r, s1 <- kalloc s ;; call rs, s2 <- kallocs (S n) s1 ;; Done (r :: rs) s2).
    cbn [kallocs] in H.
    destruct (kalloc s) as [r s1|msg|]; cbn [bind] in *; try discriminate.
    destruct (kallocs n s1) as [rs s2|msg|] eqn:E; cbn [bind] in H; try discriminate.
    inversion H; subst. rewrite (IH s1 rs s' E).
    destruct (kalloc s') as [r' s''|msg|]; reflexivity.
Qed.

(** X16: a double free loses the free list.  When a frame that is on the list,
    behind the frames [qs], is freed again, the calls of [kalloc] return it
    a second time after [qs]; the link they then read from it is the fill
    pattern of its first allocation, so the list head becomes
    [0x0505050505050505] and the frames that were behind it are no longer
    reachable. *)
Theorem double_free_loses_list (pa : Z) (qs : list Z) (s : kstate) :
  layout_ok ->
  valid_frame pa ->
  INT_MIN < memrefs s (frame_index pa) <= 0 ->
  linked (phys s) (freelist s) qs pa ->
  Forall valid_frame qs -> NoDup qs -> ~ In pa qs ->
  exists s1 s2,
    kfree pa s = Done tt s1
    /\ kallocs (S (S (length qs))) s1 = Done (pa :: qs ++ [pa]) s2
    /\ freelist s2 = 0x0505050505050505.
Proof.
  intros Hok Hpa Hc Hl Hv Hnd Hnin.
  rewrite kfree_pushes by (try assumption; lia).
  set (m := phys s) in *. set (h := freelist s) in *.
  set (m1 := store64 (memset m pa 1 PGSIZE) pa h).
  assert (Hh : 0 <= h < 2 ^ 64).
  { apply valid_frame_uint64; [assumption|].
    destruct (linked_head m h pa qs Hl) as [->|Hin]; [assumption|].
    rewrite Forall_forall in Hv. apply Hv. exact Hin. }
  assert (Hlink : load64 m1 pa = h) by (apply load64_store64; exact Hh).
  assert (Hs1 : same_links m m1 qs).
  { intros x a Hx Ha.
    assert (Hvx : valid_frame x) by (rewrite Forall_forall in Hv; apply Hv; exact Hx).
    assert (Hne : x <> pa) by (intros ->; contradiction).
    pose proof (valid_frames_apart x pa Hvx Hpa Hne) as Hap.
    apply freed_page_content. unfold PGSIZE in *. lia. }
  pose proof (valid_frame_nonzero pa Hok Hpa) as Hpa0.
  destruct (valid_frame_index pa Hok Hpa) as [_ Hin].
  set (refs1 := upd (memrefs s) (frame_index pa) (memrefs s (frame_index pa) - 1)).
  (* the first allocation and the walk through [qs] *)
  destruct (kallocs_walk m pa qs Hok (upd refs1 (frame_index pa) 1) h
              (memset m1 pa 5 PGSIZE) Hl Hv Hnd)
    as (s' & Hwalk & Hhead & _ & _ & Hmem).
  { apply same_links_memset; assumption. }
  assert (Hfirst : kallocs (S (length qs)) (mkState refs1 pa m1) = Done (pa :: qs) s').
  { change (kallocs (S (length qs)) ?s0)
      with (call r, s1 <- kalloc s0 ;; call rs, s2 <- kallocs (length qs) s1 ;; Done (r :: rs) s2).
    rewrite kalloc_head by (cbn [freelist]; assumption).
    cbn [bind memrefs freelist phys]. rewrite Hlink, Hwalk. reflexivity. }
  exists (mkState refs1 pa m1). eexists. split; [reflexivity|].
  rewrite (kallocs_snoc _ _ _ _ Hfirst).
  rewrite kalloc_head by (rewrite Hhead; assumption).
  cbn [bind freelist]. rewrite Hhead. split; [reflexivity|].
  rewrite (load64_ext (memset m1 pa 5 PGSIZE) (phys s') pa).
  - rewrite load64_memset. reflexivity.
  - intros a Ha. apply Hmem. intros x Hx.
    assert (Hvx : valid_frame x) by (rewrite Forall_forall in Hv; apply Hv; exact Hx).
    assert (Hne : x <> pa) by (intros ->; contradiction).
    pose proof (valid_frames_apart x pa Hvx Hpa Hne) as Hap.
    unfold PGSIZE in *. lia.
Qed.

End AllocatorFacts.

(** * The further properties at work on the sample states *)

Lemma sample_free_list (n : Z) :
  free_list_inv (L := xv6_layout) (sample_state n) [frame_g; frame_h].
Proof.
  split; [|split].
  - constructor; [discriminate|].
    replace (load64 (phys (sample_state n)) frame_g) with frame_h by reflexivity.
    constructor; [discriminate|].
    replace (load64 (phys (sample_state n)) frame_h) with 0 by reflexivity.
    constructor.
  - constructor; [exact xv6_valid_frame_g|].
    constructor; [exact xv6_valid_frame_h | constructor].
  - intros x [<-|[<-|[]]]; discriminate.
Qed.

(** [kfree] of one of two references to [frame_f] leaves the counter of
    [frame_g] and the list head alone. *)
Lemma kfree_frame_witness :
  memrefs (mkState (upd (memrefs (sample_state 2)) 0x87fff 1) frame_g sample_memory) 0x87ffe
    = memrefs (sample_state 2) 0x87ffe
  /\ memrefs (mkState (upd (memrefs (sample_state 2)) 0x87fff 1) frame_g sample_memory) 0x87fff
    = memrefs (sample_state 2) 0x87fff - 1.
Proof.
  destruct (kfree_frame (L := xv6_layout) frame_f (sample_state 2)
              (mkState (upd (memrefs (sample_state 2)) 0x87fff 1) frame_g sample_memory)
              eq_refl) as (Hother & _ & _ & Hself).
  split; [apply Hother; discriminate | exact Hself].
Defined.

(** Three more references to [frame_f], given back again. *)
Lemma incr_ref_kfree_balance_witness :
  exists s1 s2,
    times 3 (incr_ref (L := xv6_layout) frame_f) (sample_state 1) = Done tt s1
    /\ memrefs s1 0x87fff = 4
    /\ times 3 (kfree (L := xv6_layout) frame_f) s1 = Done tt s2
    /\ memrefs s2 0x87fff = 1
    /\ freelist s2 = frame_g.
Proof.
  destruct (incr_ref_kfree_balance (L := xv6_layout) frame_f 3 (sample_state 1)
              xv6_layout_ok xv6_valid_frame_f eq_refl)
    as (s1 & s2 & Hup & (Hc & _) & Hdown & Hrefs & Hhead & _).
  { discriminate. }
  exists s1, s2. split; [exact Hup|]. split; [exact Hc|]. split; [exact Hdown|].
  split; [apply Hrefs | exact Hhead].
Defined.

(** [frame_f] with three references: the third [kfree] frees it. *)
Lemma kfree_last_reference_witness :
  (exists s', times 2 (kfree (L := xv6_layout) frame_f) (sample_state 3) = Done tt s'
              /\ memrefs s' 0x87fff = 1 /\ freelist s' = frame_g)
  /\ exists s', times 3 (kfree (L := xv6_layout) frame_f) (sample_state 3) = Done tt s'
                /\ memrefs s' 0x87fff = 0 /\ freelist s' = frame_f.
Proof.
  destruct (kfree_last_reference (L := xv6_layout) frame_f 2 (sample_state 3)
              xv6_layout_ok xv6_valid_frame_f eq_refl) as (Hkeep & s' & Hrun & Hc & _ & Hhead & _).
  split.
  - destruct (Hkeep 2%nat (le_n 2)) as (s2 & Hrun2 & Hc2 & _ & Hhead2 & _).
    exists s2. split; [exact Hrun2|]. split; [exact Hc2 | exact Hhead2].
  - exists s'. split; [exact Hrun|]. split; [exact Hc | exact Hhead].
Defined.

(** The two free frames of the sample state are handed out in list order;
    the third call returns 0. *)
Lemma kallocs_exhaust_witness :
  exists s',
    kallocs (L := xv6_layout) 2 (sample_state 2) = Done [frame_g; frame_h] s'
    /\ kalloc (L := xv6_layout) s' = Done 0 s'.
Proof.
  destruct (sample_free_list 2) as (Hl & Hv & _).
  destruct (kallocs_exhaust (L := xv6_layout) [frame_g; frame_h] (sample_state 2)
              xv6_layout_ok Hl Hv) as (s' & Hrun & _ & _ & _ & Hzero).
  exists s'. split; [exact Hrun | exact Hzero].
Defined.

(** [frame_g] allocated and freed at once: the list is as before. *)
Lemma kalloc_kfree_roundtrip_witness :
  exists s1 s2,
    kalloc (L := xv6_layout) (sample_state 2) = Done frame_g s1
    /\ kfree (L := xv6_layout) frame_g s1 = Done tt s2
    /\ linked (phys s2) (freelist s2) [frame_g; frame_h] 0
    /\ memrefs s2 0x87ffe = 0.
Proof.
  destruct (sample_free_list 2) as (Hl & Hv & _).
  destruct (kalloc_kfree_roundtrip (L := xv6_layout) frame_g 0 [frame_h] (sample_state 2)
              xv6_layout_ok Hl Hv (linked_NoDup _ _ _ Hl))
    as (s1 & s2 & Ha & Hf & _ & Hlist & Hc & _).
  { split; [discriminate | reflexivity]. }
  exists s1, s2. split; [exact Ha|]. split; [exact Hf|]. split; [exact Hlist | exact Hc].
Defined.

(** On the small machine, [freerange] from the middle of a page to
    [PHYSTOP] frees the two whole pages of that range. *)
Lemma freerange_spec_witness :
  exists s',
    freerange (L := tiny_layout) 0x80021800 0x80024000 (boot_state (fun _ => 0))
      = Some (Done tt s')
    /\ linked (phys s') (freelist s') [0x80023000; 0x80022000] 0
    /\ memrefs s' 0x80022 = -1
    /\ memrefs s' 0x80021 = 0.
Proof.
  destruct (freerange_spec (L := tiny_layout) 0x80021800 0x80024000 0 []
              (boot_state (fun _ => 0)) tiny_layout_ok)
    as (s' & Hrun & _ & Hlist & Hdec & Hoth & _).
  - split; discriminate.
  - discriminate.
  - intros q _. split; [reflexivity | discriminate].
  - split; [discriminate | reflexivity].
  - constructor.
  - constructor.
  - intros x [].
  - exists s'. split; [exact Hrun|]. split; [exact Hlist|]. split.
    + apply (Hdec 0x80022000). left. reflexivity.
    + apply (Hoth 0x80021). intros q [<-|[<-|[]]]; discriminate.
Defined.

(** [kinit] on the small machine: three frames, the highest first. *)
Lemma kinit_spec_witness :
  exists s',
    kinit (L := tiny_layout) (boot_state (fun _ => 0)) = Some (Done tt s')
    /\ linked (phys s') (freelist s') [0x80023000; 0x80022000; 0x80021000] 0
    /\ memrefs s' 0x80021 = -1
    /\ memrefs s' 0x80020 = 0.
Proof.
  destruct (kinit_spec (L := tiny_layout) (fun _ => 0) tiny_layout_ok)
    as (s' & Hrun & Hlist & _ & Hin & Hone & Hzero & _).
  { discriminate. }
  { discriminate. }
  exists s'. split; [exact Hrun|]. split; [exact Hlist|]. split.
  - apply (Hone 0x80021000). apply Hin. right. right. left. reflexivity.
  - apply Hzero. intros q Hq. apply Hin in Hq.
    destruct Hq as [<-|[<-|[<-|[]]]]; discriminate.
Defined.

(** After [kinit] on the small machine, three allocations and then none. *)
Lemma kinit_then_kallocs_witness :
  exists s1 s2,
    kinit (L := tiny_layout) (boot_state (fun _ => 0)) = Some (Done tt s1)
    /\ kallocs (L := tiny_layout) 3 s1
         = Done [0x80023000; 0x80022000; 0x80021000] s2
    /\ kalloc (L := tiny_layout) s2 = Done 0 s2.
Proof.
  destruct (kinit_then_kallocs (L := tiny_layout) (fun _ => 0) tiny_layout_ok)
    as (s1 & s2 & Hrun & Hallocs & _ & _ & Hzero).
  { discriminate. }
  { discriminate. }
  exists s1, s2. split; [exact Hrun|]. split; [exact Hallocs | exact Hzero].
Defined.

(** Two addresses of page 5. *)
Lemma cowcopy_page_offset_witness :
  cowcopy (L := xv6_layout) true (sample_table pte_cow) 0x5123 (sample_state 2)
  = cowcopy (L := xv6_layout) true (sample_table pte_cow) 0x5ff8 (sample_state 2).
Proof.
  apply (cowcopy_page_offset (L := xv6_layout)). reflexivity.
Defined.

(** The fork scenario on [shared_table]: page 5 gets the copy in
    [frame_g], page 6 keeps [frame_f] and becomes writable in place. *)
Lemma cowcopy_second_fault_witness :
  exists pagetable1 s1 pagetable2,
    cowcopy (L := xv6_layout) true shared_table 0x5123 (sample_state 2)
      = Done (frame_g, pagetable1) s1
    /\ cowcopy (L := xv6_layout) true pagetable1 0x6000 s1 = Done (frame_f, pagetable2) s1
    /\ pagetable2 5 = Some (Z.lor (PA2PTE frame_g) 0x17)
    /\ pagetable2 6 = Some pte_plain.
Proof.
  destruct (cowcopy_second_fault (L := xv6_layout) true shared_table 0x5123 0x6000
              pte_cow pte_cow (sample_state 2) xv6_layout_ok)
    as (pagetable1 & s1 & pagetable2 & H1 & H2 & _ & E1 & E2);
    try reflexivity; try discriminate;
    [exact xv6_valid_frame_f | exact xv6_valid_frame_g |].
  exists pagetable1, s1, pagetable2.
  split; [exact H1|]. split; [exact H2|]. split; [exact E1 | exact E2].
Defined.

(** The sole-owner fault on page 5 leaves the empty slot of page 6 empty. *)
Lemma cowcopy_one_slot_witness :
  store_pte (store_pte (sample_table pte_cow) 5 (Z.lor pte_cow PTE_W)) 5
    (grant_write (L := xv6_layout) pte_cow) 6
  = sample_table pte_cow 6.
Proof.
  apply (cowcopy_one_slot (L := xv6_layout) true (sample_table pte_cow) _ 0x5123
           frame_f (sample_state 1) (sample_state 1)).
  - apply (cowcopy_in_place (L := xv6_layout) true (sample_table pte_cow) 0x5123 pte_cow
             (sample_state 1)); reflexivity.
  - discriminate.
Defined.

(** After the sole-owner fault on page 5, [iscow] no longer reports it. *)
Lemma cowcopy_resolves_witness :
  iscow (L := xv6_layout)
    (store_pte (store_pte (sample_table pte_cow) 5 (Z.lor pte_cow PTE_W)) 5
       (grant_write (L := xv6_layout) pte_cow)) 0x5123 = 0.
Proof.
  apply (cowcopy_resolves (L := xv6_layout) true (sample_table pte_cow) _ 0x5123
           frame_f (sample_state 1) (sample_state 1) xv6_layout_ok xv6_cow_flag_ok).
  - right. exact xv6_valid_frame_g.
  - apply (cowcopy_in_place (L := xv6_layout) true (sample_table pte_cow) 0x5123 pte_cow
             (sample_state 1)); reflexivity.
  - discriminate.
Defined.

(** The sample free list through an allocation and through the release of
    the last reference to [frame_f]. *)
Lemma free_list_invariant_witness :
  (exists s', kalloc (L := xv6_layout) (sample_state 1) = Done frame_g s'
              /\ free_list_inv (L := xv6_layout) s' [frame_h])
  /\ exists s', kfree (L := xv6_layout) frame_f (sample_state 1) = Done tt s'
                /\ free_list_inv (L := xv6_layout) s' [frame_f; frame_g; frame_h].
Proof.
  destruct (free_list_invariant (L := xv6_layout) (sample_state 1) [frame_g; frame_h]
              xv6_layout_ok (sample_free_list 1)) as (Hpop & _ & _ & Hlast & _).
  split.
  - destruct (Hpop frame_g [frame_h] eq_refl) as (s' & Hrun & Hinv & _).
    exists s'. split; [exact Hrun | exact Hinv].
  - apply Hlast; [exact xv6_valid_frame_f | reflexivity].
Defined.

(** The copying fault takes [frame_g] off the sample free list. *)
Lemma cowcopy_keeps_free_list_witness :
  exists v pagetable' s',
    cowcopy (L := xv6_layout) true (sample_table pte_cow) 0x5123 (sample_state 2)
      = Done (v, pagetable') s'
    /\ (free_list_inv (L := xv6_layout) s' [frame_g; frame_h]
        \/ exists l', [frame_g; frame_h] = v :: l' /\ free_list_inv (L := xv6_layout) s' l').
Proof.
  apply (cowcopy_keeps_free_list (L := xv6_layout) true (sample_table pte_cow) 0x5123
           pte_cow (sample_state 2) [frame_g; frame_h] xv6_layout_ok (sample_free_list 2)).
  - reflexivity.
  - exact xv6_valid_frame_f.
  - discriminate.
Defined.

(** [freerange] on the small machine: a range shorter than a page, a
    range that starts below the kernel's end, and a range that starts in
    the last page of the address space. *)
Lemma freerange_edges_witness :
  freerange (L := tiny_layout) 0x80021800 0x80022800 (boot_state (fun _ => 0))
    = Some (Done tt (boot_state (fun _ => 0)))
  /\ freerange (L := tiny_layout) 0x8001f800 0x80024000 (boot_state (fun _ => 0))
     = Some (Panic "kfree")
  /\ freerange (L := tiny_layout) 0xfffffffffffff000 0x80024000 (boot_state (fun _ => 0))
     = Some (Panic "kfree").
Proof.
  split; [|split].
  - apply (proj1 (freerange_edges (L := tiny_layout) _ _ _)); reflexivity.
  - apply (proj1 (proj2 (freerange_edges (L := tiny_layout) _ _ _)));
      [discriminate | left; reflexivity].
  - apply (proj2 (proj2 (freerange_edges (L := tiny_layout) _ _ _)));
      [exact tiny_layout_ok | split; [reflexivity | discriminate] | discriminate].
Defined.

(** [frame_h], second on the sample list, freed once more. *)
Lemma double_free_loses_list_witness :
  exists s1 s2,
    kfree (L := xv6_layout) frame_h (sample_state 2) = Done tt s1
    /\ kallocs (L := xv6_layout) 3 s1 = Done [frame_h; frame_g; frame_h] s2
    /\ freelist s2 = 0x0505050505050505.
Proof.
  apply (double_free_loses_list (L := xv6_layout) frame_h [frame_g] (sample_state 2)
           xv6_layout_ok xv6_valid_frame_h).
  - split; [reflexivity | discriminate].
  - constructor; [discriminate|].
    replace (load64 (phys (sample_state 2)) frame_g) with frame_h by reflexivity.
    constructor.
  - constructor; [exact xv6_valid_frame_g | constructor].
  - constructor; [intros [] | constructor].
  - intros [H|[]]. discriminate.
Defined.
